(** * LakshyNeuroChat live session: playback scheduling, teardown and PCM codec

    A shallow embedding of the [LiveSession] component
    (components/LiveSession.tsx) and of the PCM codec it imports from
    services/audioUtils, followed by the request builders of
    services/geminiService and the send handler of components/ChatInterface.

    Conventions of the embedding:
    - JavaScript numbers that carry time or amplitude (device time, buffer
      durations, float samples, visualizer bars) are rationals [Q], as every
      double is one.  Their arithmetic is exact in the capture and visualizer
      code and in [onmessage]; in [onmessage_settle] the sum that advances
      the playback cursor is the rounded sum [plus], a parameter, of which
      [binary64] is the IEEE instance.
    - A React ref is a field of [State]; a nullable ref is an [option].
    - Every call that leaves the component (Web Audio, media devices, the
      live transport, timers, the console, the visualizer state setter) is an
      [Effect]; a handler returns the next state together with the effects it
      issued, in program order.
    - Handles (audio contexts, buffer sources, sessions, timers) are natural
      numbers drawn from the counter [fresh].
    - A handler runs until it returns or reaches an [await]; an awaited
      promise that rejects ends the handler at the [await].  [startSession]
      is split at its [await].  The inbound message handler is given twice:
      [onmessage] is the handler when nothing else runs while it awaits the
      decoder, and [onmessage_arrive], [onmessage_settle] are its two halves,
      run by the event loop [turn] with other handlers in between. *)

From Stdlib Require Import String Ascii.
From Stdlib Require Import List ZArith QArith Qminmax Qabs Lia Lqa Bool.
From Stdlib Require Import Strings.Byte.
From Stdlib Require DecimalString.
From Stdlib Require PrimFloat SpecFloat FloatOps Uint63.
Import ListNotations.

Local Open Scope Z_scope.

(** ** Bytes *)

Definition byte_to_Z (b : byte) : Z := Z.of_N (Byte.to_N b).

Definition byte_of_Z (z : Z) : byte :=
  match Byte.of_N (Z.to_N (z mod 256)) with
  | Some b => b
  | None => x00
  end.

(** ** Data model *)

(** Handles of platform objects. *)
Definition AudioContext := nat.
Definition AudioBufferSourceNode := nat.
Definition Session := nat.
Definition TimerId := nat.
Definition MediaStreamTrack := nat.
Definition HTMLElement := nat.

Record MediaStream := { getTracks : list MediaStreamTrack }.

(** The only attribute of a decoded buffer that LiveSession reads. *)
Record AudioBuffer := { duration : Q }.

(** [Blob], [Part], [Content], [LiveServerContent] and [LiveServerMessage] of
    the transport library; every field is optional there. *)
Record Blob := { data : option string; mimeType : option string }.

Record Part := { inlineData : option Blob; text : option string }.

Record Content := { parts : option (list Part) }.

Record LiveServerContent :=
  { modelTurn : option Content; interrupted : option bool }.

Record LiveServerMessage := { serverContent : option LiveServerContent }.

Record ErrorEvent := { message : string }.

(** Settlement of [navigator.mediaDevices.getUserMedia]. *)
Inductive MediaResult :=
| Granted (stream : MediaStream)
| Denied (reason : string).

(** Calls that leave the component. *)
Inductive Effect :=
| NewAudioContext (ctx : AudioContext) (sampleRate : Z)
| GetUserMedia
| VideoPlay (video : HTMLElement) (stream : MediaStream)
| LiveConnect (session : Session)
| SessionClose (session : Session)
| SendRealtimeInput (session : Session) (media : Blob)
| CreateScriptProcessor (ctx : AudioContext) (stream : MediaStream)
    (bufferSize : Z)
| SetInterval (id : TimerId) (ms : Z)
| ClearInterval (id : TimerId)
| TrackStop (track : MediaStreamTrack)
| ContextClose (ctx : AudioContext)
| CreateBufferSource (ctx : AudioContext) (source : AudioBufferSourceNode)
| SourceStart (source : AudioBufferSourceNode) (buffer : AudioBuffer)
    (when : Q)
| SourceStop (source : AudioBufferSourceNode)
| SetVisualizerData (bars : list Q)
| ConsoleError (args : list string).

(** The component's React state and refs, with the two counters of the
    embedding: [fresh] (next unused handle) and [randomCalls] (number of
    [Math.random] draws so far). *)
Record State := mkState {
  isConnected : bool;
  error : option string;
  visualizerData : list Q;
  videoRef : option HTMLElement;
  canvasRef : option HTMLElement;
  streamRef : option MediaStream;
  inputContextRef : option AudioContext;
  outputContextRef : option AudioContext;
  nextStartTimeRef : Q;
  sourcesRef : list AudioBufferSourceNode;
  sessionRef : option Session;
  frameIntervalRef : option TimerId;
  fresh : nat;
  randomCalls : nat
}.

Definition set_isConnected (v : bool) (st : State) : State :=
  {| isConnected := v; error := error st; visualizerData := visualizerData
     st; videoRef := videoRef st; canvasRef := canvasRef st; streamRef :=
     streamRef st; inputContextRef := inputContextRef st; outputContextRef :=
     outputContextRef st; nextStartTimeRef := nextStartTimeRef st; sourcesRef
     := sourcesRef st; sessionRef := sessionRef st; frameIntervalRef :=
     frameIntervalRef st; fresh := fresh st; randomCalls := randomCalls st |}.

Definition set_error (v : option string) (st : State) : State :=
  {| isConnected := isConnected st; error := v; visualizerData :=
     visualizerData st; videoRef := videoRef st; canvasRef := canvasRef st;
     streamRef := streamRef st; inputContextRef := inputContextRef st;
     outputContextRef := outputContextRef st; nextStartTimeRef :=
     nextStartTimeRef st; sourcesRef := sourcesRef st; sessionRef := sessionRef
     st; frameIntervalRef := frameIntervalRef st; fresh := fresh st;
     randomCalls := randomCalls st |}.

Definition set_visualizerData (v : list Q) (st : State) : State :=
  {| isConnected := isConnected st; error := error st; visualizerData := v;
     videoRef := videoRef st; canvasRef := canvasRef st; streamRef := streamRef
     st; inputContextRef := inputContextRef st; outputContextRef :=
     outputContextRef st; nextStartTimeRef := nextStartTimeRef st; sourcesRef
     := sourcesRef st; sessionRef := sessionRef st; frameIntervalRef :=
     frameIntervalRef st; fresh := fresh st; randomCalls := randomCalls st |}.

Definition set_streamRef (v : option MediaStream) (st : State) : State :=
  {| isConnected := isConnected st; error := error st; visualizerData :=
     visualizerData st; videoRef := videoRef st; canvasRef := canvasRef st;
     streamRef := v; inputContextRef := inputContextRef st; outputContextRef :=
     outputContextRef st; nextStartTimeRef := nextStartTimeRef st; sourcesRef
     := sourcesRef st; sessionRef := sessionRef st; frameIntervalRef :=
     frameIntervalRef st; fresh := fresh st; randomCalls := randomCalls st |}.

Definition set_inputContextRef (v : option AudioContext) (st : State) : State :=
  {| isConnected := isConnected st; error := error st; visualizerData :=
     visualizerData st; videoRef := videoRef st; canvasRef := canvasRef st;
     streamRef := streamRef st; inputContextRef := v; outputContextRef :=
     outputContextRef st; nextStartTimeRef := nextStartTimeRef st; sourcesRef
     := sourcesRef st; sessionRef := sessionRef st; frameIntervalRef :=
     frameIntervalRef st; fresh := fresh st; randomCalls := randomCalls st |}.

Definition set_outputContextRef (v : option AudioContext) (st : State) : State :=
  {| isConnected := isConnected st; error := error st; visualizerData :=
     visualizerData st; videoRef := videoRef st; canvasRef := canvasRef st;
     streamRef := streamRef st; inputContextRef := inputContextRef st;
     outputContextRef := v; nextStartTimeRef := nextStartTimeRef st; sourcesRef
     := sourcesRef st; sessionRef := sessionRef st; frameIntervalRef :=
     frameIntervalRef st; fresh := fresh st; randomCalls := randomCalls st |}.

Definition set_nextStartTimeRef (v : Q) (st : State) : State :=
  {| isConnected := isConnected st; error := error st; visualizerData :=
     visualizerData st; videoRef := videoRef st; canvasRef := canvasRef st;
     streamRef := streamRef st; inputContextRef := inputContextRef st;
     outputContextRef := outputContextRef st; nextStartTimeRef := v; sourcesRef
     := sourcesRef st; sessionRef := sessionRef st; frameIntervalRef :=
     frameIntervalRef st; fresh := fresh st; randomCalls := randomCalls st |}.

Definition set_sourcesRef (v : list AudioBufferSourceNode) (st : State) : State :=
  {| isConnected := isConnected st; error := error st; visualizerData :=
     visualizerData st; videoRef := videoRef st; canvasRef := canvasRef st;
     streamRef := streamRef st; inputContextRef := inputContextRef st;
     outputContextRef := outputContextRef st; nextStartTimeRef :=
     nextStartTimeRef st; sourcesRef := v; sessionRef := sessionRef st;
     frameIntervalRef := frameIntervalRef st; fresh := fresh st; randomCalls :=
     randomCalls st |}.

Definition set_sessionRef (v : option Session) (st : State) : State :=
  {| isConnected := isConnected st; error := error st; visualizerData :=
     visualizerData st; videoRef := videoRef st; canvasRef := canvasRef st;
     streamRef := streamRef st; inputContextRef := inputContextRef st;
     outputContextRef := outputContextRef st; nextStartTimeRef :=
     nextStartTimeRef st; sourcesRef := sourcesRef st; sessionRef := v;
     frameIntervalRef := frameIntervalRef st; fresh := fresh st; randomCalls :=
     randomCalls st |}.

Definition set_frameIntervalRef (v : option TimerId) (st : State) : State :=
  {| isConnected := isConnected st; error := error st; visualizerData :=
     visualizerData st; videoRef := videoRef st; canvasRef := canvasRef st;
     streamRef := streamRef st; inputContextRef := inputContextRef st;
     outputContextRef := outputContextRef st; nextStartTimeRef :=
     nextStartTimeRef st; sourcesRef := sourcesRef st; sessionRef := sessionRef
     st; frameIntervalRef := v; fresh := fresh st; randomCalls := randomCalls
     st |}.

Definition set_fresh (v : nat) (st : State) : State :=
  {| isConnected := isConnected st; error := error st; visualizerData :=
     visualizerData st; videoRef := videoRef st; canvasRef := canvasRef st;
     streamRef := streamRef st; inputContextRef := inputContextRef st;
     outputContextRef := outputContextRef st; nextStartTimeRef :=
     nextStartTimeRef st; sourcesRef := sourcesRef st; sessionRef := sessionRef
     st; frameIntervalRef := frameIntervalRef st; fresh := v; randomCalls :=
     randomCalls st |}.

Definition set_randomCalls (v : nat) (st : State) : State :=
  {| isConnected := isConnected st; error := error st; visualizerData :=
     visualizerData st; videoRef := videoRef st; canvasRef := canvasRef st;
     streamRef := streamRef st; inputContextRef := inputContextRef st;
     outputContextRef := outputContextRef st; nextStartTimeRef :=
     nextStartTimeRef st; sourcesRef := sourcesRef st; sessionRef := sessionRef
     st; frameIntervalRef := frameIntervalRef st; fresh := fresh st;
     randomCalls := v |}.

(** What LiveSession imports and the sources at hand do not contain: the three
    functions of services/audioUtils and the platform's [Math.random].  A
    function that can throw returns [None] when it does. *)
Record Env := {
  createBlob : list Q -> Blob;
  decode : string -> option (list byte);
  decodeAudioData :
    list byte -> AudioContext -> positive -> positive -> option AudioBuffer;
  random : nat -> Q
}.

(** The state of a freshly mounted component: [useState] and [useRef]
    initial values, the video and canvas elements attached. *)
Definition mounted : State :=
  {| isConnected := false; error := None;
     visualizerData := repeat (10 # 1) 10;
     videoRef := Some 0%nat; canvasRef := Some 1%nat; streamRef := None;
     inputContextRef := None; outputContextRef := None;
     nextStartTimeRef := 0; sourcesRef := []; sessionRef := None;
     frameIntervalRef := None; fresh := 2; randomCalls := 0 |}.

(** ** The PCM codec (services/audioUtils) *)

Module PCM.

Definition INT16_MIN : Z := -32768.
Definition INT16_MAX : Z := 32767.

(** Modelled from the spec: services/audioUtils is not among the sources.
    "Linear scaling" of a sample in [-1,1] to 16 bits is taken as the sample
    times 2^15 with the fraction dropped (towards zero). *)
Definition scale (x : Q) : Z := Z.quot (Qnum x * 32768) (Zpos (Qden x)).

(** Modelled from the spec: "clamps out-of-range input to the
    representable extremes". *)
Definition clamp (v : Z) : Z := Z.max INT16_MIN (Z.min INT16_MAX v).

(** Modelled from the spec: the 16-bit quantized value of a sample. *)
Definition quantize (x : Q) : Z := clamp (scale x).

(** Modelled from the spec: the "compact integer wire representation" of
    services/audioUtils, taken as the two's-complement little-endian bytes of
    a 16-bit integer. *)
Definition int16_bytes (v : Z) : list byte :=
  let u := v mod 65536 in [byte_of_Z (u mod 256); byte_of_Z (u / 256)].

(** Modelled from the spec: the 16-bit integer read back from two bytes of
    services/audioUtils' wire representation. *)
Definition int16_of_bytes (lo hi : byte) : Z :=
  let u := byte_to_Z lo + 256 * byte_to_Z hi in
  if 32768 <=? u then u - 65536 else u.

(** Modelled from the spec:
    [encode(samples: sequence<float in [-1,1]>) -> bytes]. *)
Definition encode (samples : list Q) : list byte :=
  flat_map (fun x => int16_bytes (quantize x)) samples.

(** Modelled from the spec: [decode(bytes) -> sequence<int16>], "odd-length
    input is a malformed-input error" ([None]). *)
Fixpoint decode (bytes : list byte) : option (list Z) :=
  match bytes with
  | [] => Some []
  | lo :: hi :: rest =>
      match decode rest with
      | Some vs => Some (int16_of_bytes lo hi :: vs)
      | None => None
      end
  | [_] => None
  end.

End PCM.

(** ** services/audioUtils as LiveSession uses it *)

Module AudioUtils.

(** Modelled from the spec: the "base64 payload" of the transport, for the
    absent services/audioUtils.  Base64 alphabet (RFC 4648): value of a
    character, character of a value. *)
Definition sextet (c : ascii) : option Z :=
  let n := Z.of_N (N_of_ascii c) in
  if (65 <=? n) && (n <=? 90) then Some (n - 65)
  else if (97 <=? n) && (n <=? 122) then Some (n - 71)
  else if (48 <=? n) && (n <=? 57) then Some (n + 4)
  else if n =? 43 then Some 62
  else if n =? 47 then Some 63
  else None.

Definition sextet_char (v : Z) : ascii :=
  let n :=
    if v <? 26 then v + 65
    else if v <? 52 then v + 71
    else if v <? 62 then v - 4
    else if v =? 62 then 43 else 47 in
  ascii_of_N (Z.to_N n).

(** Modelled from the spec: base64 text to bytes ([atob]) and back ([btoa])
    for the absent services/audioUtils; text outside the alphabet or of a
    length that is no multiple of four is an error ([None]). *)
Definition is_pad (c : ascii) : bool := (N_of_ascii c =? 61)%N.

Fixpoint atob (cs : list ascii) : option (list byte) :=
  match cs with
  | [] => Some []
  | a :: b :: c :: d :: rest =>
      match sextet a, sextet b with
      | Some x, Some y =>
          let b0 := byte_of_Z (x * 4 + y / 16) in
          if is_pad d then
            match rest with
            | [] =>
                if is_pad c then Some [b0]
                else match sextet c with
                     | Some z => Some [b0; byte_of_Z (y mod 16 * 16 + z / 4)]
                     | None => None
                     end
            | _ :: _ => None
            end
          else
            match sextet c, sextet d, atob rest with
            | Some z, Some w, Some tl =>
                Some (b0 :: byte_of_Z (y mod 16 * 16 + z / 4)
                         :: byte_of_Z (z mod 4 * 64 + w) :: tl)
            | _, _, _ => None
            end
      | _, _ => None
      end
  | _ => None
  end.

Fixpoint btoa (bs : list byte) : list ascii :=
  match bs with
  | [] => []
  | [a] =>
      let x := byte_to_Z a in
      [sextet_char (x / 4); sextet_char (x mod 4 * 16); "="%char; "="%char]
  | [a; b] =>
      let x := byte_to_Z a in
      let y := byte_to_Z b in
      [sextet_char (x / 4); sextet_char (x mod 4 * 16 + y / 16);
       sextet_char (y mod 16 * 4); "="%char]
  | a :: b :: c :: rest =>
      let x := byte_to_Z a in
      let y := byte_to_Z b in
      let z := byte_to_Z c in
      sextet_char (x / 4) :: sextet_char (x mod 4 * 16 + y / 16)
        :: sextet_char (y mod 16 * 4 + z / 64) :: sextet_char (z mod 64)
        :: btoa rest
  end.

(** Modelled from the spec: the outbound audio chunk of services/audioUtils,
    "PCM16 bytes + fixed sample rate tag", 16 000 Hz for capture; the bytes
    travel base64-encoded. *)
Definition createBlob (data : list Q) : Blob :=
  {| data := Some (string_of_list_ascii (btoa (PCM.encode data)));
     mimeType := Some "audio/pcm;rate=16000"%string |}.

(** Modelled from the spec: the inbound audio chunk of services/audioUtils is
    a "base64 payload"; text that is not base64 is an error ([None]). *)
Definition decode (base64 : string) : option (list byte) :=
  atob (list_ascii_of_string base64).

(** Modelled from the spec: the decoded playback buffer of
    services/audioUtils, 16-bit samples at the given rate; "odd-length input
    is a malformed-input error" ([None]).  Its duration is frames over rate. *)
Definition decodeAudioData (bytes : list byte) (ctx : AudioContext)
    (sampleRate numChannels : positive) : option AudioBuffer :=
  match PCM.decode bytes with
  | Some samples =>
      Some {| duration :=
                Z.of_nat (length samples) / Z.pos numChannels # sampleRate |}
  | None => None
  end.

End AudioUtils.

(** A concrete environment: the codec above and a fixed sequence in [0,1)
    standing for [Math.random]. *)
Definition browser : Env :=
  {| createBlob := AudioUtils.createBlob;
     decode := AudioUtils.decode;
     decodeAudioData := AudioUtils.decodeAudioData;
     random := fun n => (Z.of_nat n * 37) mod 100 # 100 |}.

(** ** LiveSession handlers *)

(** JavaScript truthiness of a string and of an optional boolean. *)
Definition truthy (s : string) : bool :=
  match s with EmptyString => false | String _ _ => true end.

Definition is_true (b : option bool) : bool :=
  match b with Some true => true | _ => false end.

(** Optional chaining [o?.f]. *)
Definition chain {A B : Type} (o : option A) (f : A -> option B) : option B :=
  match o with Some a => f a | None => None end.

Notation "o ?. f" := (chain o f) (at level 50, left associativity).

(** [msg.serverContent?.modelTurn?.parts?.[0]] *)
Definition firstPart (msg : LiveServerMessage) : option Part :=
  serverContent msg ?. modelTurn ?. parts ?. (fun ps => nth_error ps 0).

(** [msg.serverContent?.modelTurn?.parts?.[0]?.inlineData?.data] *)
Definition base64Audio (msg : LiveServerMessage) : option string :=
  firstPart msg ?. inlineData ?. data.

(** [msg.serverContent?.interrupted] *)
Definition interruptedFlag (msg : LiveServerMessage) : option bool :=
  serverContent msg ?. interrupted.

(** [Set.prototype.add] and [Set.prototype.delete] on an insertion-ordered
    set. *)
Definition set_add (x : nat) (s : list nat) : list nat :=
  if existsb (Nat.eqb x) s then s else s ++ [x].

Definition set_delete (x : nat) (s : list nat) : list nat :=
  filter (fun y => negb (Nat.eqb x y)) s.

(** How a handler ends: normally, or at an [await] whose promise rejected. *)
Inductive Completion := Normal | Rejected.

(** [startSession] up to [await getUserMedia].  Creating the client and the
    two audio contexts is taken to succeed. *)
Definition startSession_setup (st : State) : State * list Effect :=
  let st := set_error None st in
  let input := fresh st in
  let output := S (fresh st) in
  let st := set_fresh (S output) st in
  let st := set_inputContextRef (Some input) st in
  let st := set_outputContextRef (Some output) st in
  let st := set_nextStartTimeRef 0%Q st in
  (st, [NewAudioContext input 16000; NewAudioContext output 24000;
        GetUserMedia]).

(** [startSession] from the settlement of [getUserMedia]: the rest of the
    [try] block, or the [catch] block. *)
Definition startSession_resume (st : State) (r : MediaResult)
  : State * list Effect :=
  match r with
  | Granted stream =>
      let st := set_streamRef (Some stream) st in
      let preview :=
        match videoRef st with
        | Some video => [VideoPlay video stream]
        | None => []
        end in
      let session := fresh st in
      let st := set_fresh (S session) st in
      let st := set_sessionRef (Some session) st in
      (st, preview ++ [LiveConnect session])
  | Denied reason =>
      (set_error (Some "Failed to access media devices or connect."%string) st,
       [ConsoleError [reason]])
  end.

Definition startSession (st : State) (r : MediaResult) : State * list Effect :=
  let (st1, e1) := startSession_setup st in
  let (st2, e2) := startSession_resume st1 r in
  (st2, e1 ++ e2).

Definition startVideoStreaming (st : State) (session : Session)
  : State * list Effect :=
  match videoRef st, canvasRef st with
  | Some _, Some _ =>
      let id := S (fresh st) in
      let st := set_fresh (S id) st in
      (set_frameIntervalRef (Some id) st, [SetInterval id 1000])
  | _, _ => (st, [])
  end.

(** The interval callback, once the canvas snapshot has been read as base64
    ([None]: no 2d context or no blob). *)
Definition onframe (st : State) (session : Session) (frame : option string)
  : State * list Effect :=
  match frame with
  | Some base64data =>
      (st, [SendRealtimeInput session
              {| data := Some base64data;
                 mimeType := Some "image/jpeg"%string |}])
  | None => (st, [])
  end.

Definition onopen (st : State) (session : Session) (stream : MediaStream)
  : State * list Effect :=
  let st := set_isConnected true st in
  match inputContextRef st with
  | None => (st, [])
  | Some ctx =>
      let (st', e) := startVideoStreaming st session in
      (st', CreateScriptProcessor ctx stream 4096 :: e)
  end.

(** [prev.map(() => Math.random() * 20 + volume * 500)], the draws numbered
    from [k]. *)
Fixpoint redraw (E : Env) (k : nat) (volume : Q) (prev : list Q) : list Q :=
  match prev with
  | [] => []
  | _ :: rest =>
      (random E k * 20 + volume * 500)%Q :: redraw E (S k) volume rest
  end.

(** [scriptProcessor.onaudioprocess] on one captured window.  The send is
    logged where it is requested ([sessionPromise.then]).  For an empty
    window JavaScript computes 0/0 (NaN); here the quotient is 0. *)
Definition onaudioprocess (E : Env) (st : State) (session : Session)
    (inputData : list Q) : State * list Effect :=
  let pcmBlob := createBlob E inputData in
  let volume :=
    (fold_left (fun a b => a + Qabs b) inputData 0
     / inject_Z (Z.of_nat (length inputData)))%Q in
  let bars := redraw E (randomCalls st) volume (visualizerData st) in
  let st' := set_visualizerData bars st in
  let st' := set_randomCalls (randomCalls st + length (visualizerData st)) st' in
  (st', [SendRealtimeInput session pcmBlob; SetVisualizerData bars]).

(** [await decodeAudioData(decode(base64Audio), ctx, 24000, 1)]: the decoded
    buffer, or [None] when either call throws and the awaited promise is
    rejected. *)
Definition decoded (E : Env) (base64 : string) (ctx : AudioContext)
  : option AudioBuffer :=
  match decode E base64 with
  | Some bytes => decodeAudioData E bytes ctx 24000 1
  | None => None
  end.

(** [onmessage], first block ("Handle Audio Output"), when no other handler
    runs while the decoder is awaited.  There is no [try]/[catch] around the
    decode: when it fails the handler ends there, after [nextStartTime] has
    been raised to the device time. *)
Definition handleAudioOutput (E : Env) (st : State) (now : Q)
    (msg : LiveServerMessage) : State * list Effect * Completion :=
  match base64Audio msg, outputContextRef st with
  | Some base64, Some ctx =>
      if truthy base64 then
        let st := set_nextStartTimeRef (Qmax (nextStartTimeRef st) now) st in
        match decoded E base64 ctx with
        | None => (st, [], Rejected)
        | Some audioBuffer =>
            let source := fresh st in
            let st := set_fresh (S source) st in
            let startAt := nextStartTimeRef st in
            let st :=
              set_nextStartTimeRef (startAt + duration audioBuffer)%Q st in
            let st := set_sourcesRef (set_add source (sourcesRef st)) st in
            (st, [CreateBufferSource ctx source;
                  SourceStart source audioBuffer startAt], Normal)
        end
      else (st, [], Normal)
  | _, _ => (st, [], Normal)
  end.

(** [onmessage], second block ("Handle Interruption"). *)
Definition handleInterruption (st : State) (msg : LiveServerMessage)
  : State * list Effect :=
  if is_true (interruptedFlag msg) then
    let stops := map SourceStop (sourcesRef st) in
    let st := set_sourcesRef [] st in
    (set_nextStartTimeRef 0%Q st, stops)
  else (st, []).

Definition onmessage (E : Env) (st : State) (now : Q) (msg : LiveServerMessage)
  : State * list Effect :=
  match handleAudioOutput E st now msg with
  | (st1, e1, Rejected) => (st1, e1)
  | (st1, e1, Normal) =>
      let (st2, e2) := handleInterruption st1 msg in (st2, e1 ++ e2)
  end.

(** The ['ended'] listener of a started source. *)
Definition onended (st : State) (source : AudioBufferSourceNode)
  : State * list Effect :=
  (set_sourcesRef (set_delete source (sourcesRef st)) st, []).

Definition onclose (st : State) : State * list Effect :=
  (set_isConnected false st, []).

Definition onerror (st : State) (e : ErrorEvent) : State * list Effect :=
  let st := set_error (Some "Connection error."%string) st in
  (set_isConnected false st,
   [ConsoleError ["Live API Error"%string; message e]]).

(** [stopSession]: none of its calls throws synchronously ([close()] on a
    closed context returns a rejected promise); the transport close is logged
    where it is requested ([sessionRef.current.then]). *)
Definition stopSession (st : State) : State * list Effect :=
  let e1 :=
    match sessionRef st with Some s => [SessionClose s] | None => [] end in
  let e2 :=
    match streamRef st with
    | Some stream => map TrackStop (getTracks stream)
    | None => []
    end in
  let e3 :=
    match inputContextRef st with Some c => [ContextClose c] | None => [] end in
  let e4 :=
    match outputContextRef st with Some c => [ContextClose c] | None => [] end in
  let e5 :=
    match frameIntervalRef st with
    | Some (S n) => [ClearInterval (S n)]
    | _ => []
    end in
  let st := set_isConnected false st in
  (set_sessionRef None st, e1 ++ e2 ++ e3 ++ e4 ++ e5).

(** ** Event loop *)

Inductive Event :=
| Start
| Media (r : MediaResult)
| Open (session : Session) (stream : MediaStream)
| Message (now : Q) (msg : LiveServerMessage)
| Close
| Error (e : ErrorEvent)
| AudioProcess (session : Session) (inputData : list Q)
| Frame (session : Session) (frame : option string)
| Ended (source : AudioBufferSourceNode)
| Stop.

Definition step (E : Env) (st : State) (ev : Event) : State * list Effect :=
  match ev with
  | Start => startSession_setup st
  | Media r => startSession_resume st r
  | Open session stream => onopen st session stream
  | Message now msg => onmessage E st now msg
  | Close => onclose st
  | Error e => onerror st e
  | AudioProcess session inputData => onaudioprocess E st session inputData
  | Frame session frame => onframe st session frame
  | Ended source => onended st source
  | Stop => stopSession st
  end.

Fixpoint run (E : Env) (st : State) (evs : list Event) : State * list Effect :=
  match evs with
  | [] => (st, [])
  | ev :: rest =>
      let (st1, e1) := step E st ev in
      let (st2, e2) := run E st1 rest in
      (st2, e1 ++ e2)
  end.

(** Events that do not write the error text: all but [start()], which clears
    it, and a failed device acquisition, which records its own. *)
Definition keeps_error (ev : Event) : bool :=
  match ev with
  | Start | Media (Denied _) => false
  | _ => true
  end.

(** ** Observations on effect lists *)

(** Mean absolute value of a window: the sum of the absolute sample values
    over the number of samples. *)
Definition mean_abs (w : list Q) : Q :=
  (fold_right (fun x acc => Qabs x + acc) 0 w
   / inject_Z (Z.of_nat (length w)))%Q.

(** The buffers started, in order: start time and duration of each. *)
Fixpoint starts (es : list Effect) : list (Q * Q) :=
  match es with
  | [] => []
  | SourceStart _ buffer when :: rest => (when, duration buffer) :: starts rest
  | _ :: rest => starts rest
  end.

Definition count (p : Effect -> bool) (es : list Effect) : nat :=
  length (filter p es).

Definition closes (c : AudioContext) (e : Effect) : bool :=
  match e with ContextClose c' => Nat.eqb c c' | _ => false end.

Definition stops_track (t : MediaStreamTrack) (e : Effect) : bool :=
  match e with TrackStop t' => Nat.eqb t t' | _ => false end.

Definition clears (id : TimerId) (e : Effect) : bool :=
  match e with ClearInterval id' => Nat.eqb id id' | _ => false end.

Definition closes_session (s : Session) (e : Effect) : bool :=
  match e with SessionClose s' => Nat.eqb s s' | _ => false end.

Definition is_start (e : Effect) : bool :=
  match e with SourceStart _ _ _ => true | _ => false end.

Definition is_connect (e : Effect) : bool :=
  match e with LiveConnect _ => true | _ => false end.

Definition is_getUserMedia (e : Effect) : bool :=
  match e with GetUserMedia => true | _ => false end.

Definition is_close (e : Effect) : bool :=
  match e with ContextClose _ => true | _ => false end.

Definition is_send (e : Effect) : bool :=
  match e with SendRealtimeInput _ _ => true | _ => false end.

Definition is_visualizer_update (e : Effect) : bool :=
  match e with SetVisualizerData _ => true | _ => false end.

(** A message whose only content is the given parts and interruption flag. *)
Definition server_message (ps : list Part) (flag : option bool)
  : LiveServerMessage :=
  {| serverContent :=
       Some {| modelTurn := Some {| parts := Some ps |};
               interrupted := flag |} |}.

Definition audio_part (payload : string) : Part :=
  {| inlineData :=
       Some {| data := Some payload;
               mimeType := Some "audio/pcm;rate=24000"%string |};
     text := None |}.

Definition text_part (s : string) : Part :=
  {| inlineData := None; text := Some s |}.

(** ** A sample session *)

(** Microphone and camera tracks of a granted stream. *)
Definition cam : MediaStream := {| getTracks := [100%nat; 101%nat] |}.

(** From mount: [start()], the stream granted, the transport opened.  The
    audio contexts are 2 and 3, the session is 4, the video timer is 6. *)
Definition connecting : State :=
  fst (run browser mounted [Start; Media (Granted cam)]).

Definition opened : State := fst (run browser connecting [Open 4%nat cam]).

(** Three samples (1/8000 s at 24 kHz), six samples, and one byte. *)
Definition audio3 : LiveServerMessage :=
  server_message [audio_part "AAAAAAAA"] None.

Definition audio6 : LiveServerMessage :=
  server_message [audio_part "AAAAAAAAAAAAAAAA"] None.

Definition malformed_interrupt : LiveServerMessage :=
  server_message [audio_part "AA=="] (Some true).

Definition interrupt : LiveServerMessage := server_message [] (Some true).

(** [opened] after one buffer has been started at device time 1. *)
Definition playing : State := fst (onmessage browser opened 1 audio3).

(** Three buffers arriving at 1 s, before the first one has ended, and at
    5 s, with a capture window, a video frame and an end of playback in
    between. *)
Definition arrivals : list Event :=
  [Message 1 audio3; AudioProcess 4%nat [1 # 2; -1 # 4]%Q;
   Message (16001 # 16000) audio6; Frame 4%nat (Some "/9j/"%string);
   Ended 7%nat; Message 5 audio3].

Definition audio3_interrupt : LiveServerMessage :=
  server_message [audio_part "AAAAAAAA"] (Some true).

(** Text first, audio in the second part. *)
Definition late_audio : LiveServerMessage :=
  server_message [text_part "hi"; audio_part "AAAAAAAA"] None.

(** ** More observations on LiveSession *)

(** [isConnected] as the lifecycle events leave it: [onopen] sets it,
    [onclose], [onerror] and [stopSession] clear it. *)
Definition connection_after (init : bool) (evs : list Event) : bool :=
  fold_left
    (fun c ev =>
       match ev with
       | Open _ _ => true
       | Close | Error _ | Stop => false
       | _ => c
       end) evs init.

(** The media handed to [sendRealtimeInput], in order. *)
Fixpoint sent (es : list Effect) : list (Session * Blob) :=
  match es with
  | [] => []
  | SendRealtimeInput session media :: rest => (session, media) :: sent rest
  | _ :: rest => sent rest
  end.

Definition creates (c : AudioContext) (e : Effect) : bool :=
  match e with NewAudioContext c' _ => Nat.eqb c c' | _ => false end.

Definition sets_timer (id : TimerId) (e : Effect) : bool :=
  match e with SetInterval id' _ => Nat.eqb id id' | _ => false end.

Definition stops_source (s : AudioBufferSourceNode) (e : Effect) : bool :=
  match e with SourceStop s' => Nat.eqb s s' | _ => false end.

(** What one event hands to the transport: a capture window gives one audio
    chunk, a video frame that could be read gives one image. *)
Definition outbound (E : Env) (ev : Event) : list (Session * Blob) :=
  match ev with
  | AudioProcess session inputData => [(session, createBlob E inputData)]
  | Frame session (Some base64data) =>
      [(session, {| data := Some base64data;
                    mimeType := Some "image/jpeg"%string |})]
  | _ => []
  end.

(** ** The inbound message handler across its await *)

(** [onmessage] is an async function: it raises [nextStartTime] (line 391),
    awaits [decodeAudioData] (line 393) and only then reads [nextStartTime]
    again to start the source (line 407).  Other handlers can run while it
    is suspended.  [onmessage] above is the handler when nothing does; here
    it is split at the [await], and the sum of line 408 is the rounded sum
    of JavaScript numbers. *)

(** Addition of JavaScript numbers.  Times are doubles; every double is a
    rational, comparison and [Math.max] are exact on them, and [a + b] is the
    exact sum rounded to a double.  The rounded sum is a parameter. *)
Record Numbers := { plus : Q -> Q -> Q }.

(** Sums without rounding. *)
Definition unrounded : Numbers := {| plus := Qplus |}.

(** The value of a double (0 for an infinity or a NaN). *)
Definition Q_of_double (x : PrimFloat.float) : Q :=
  match FloatOps.Prim2SF x with
  | SpecFloat.S754_finite s m e =>
      let v := if s then Z.neg m else Z.pos m in
      if 0 <=? e then inject_Z (v * 2 ^ e)
      else v # Pos.pow 2 (Z.to_pos (- e))
  | _ => 0%Q
  end.

Definition double_of_Z (z : Z) : PrimFloat.float :=
  if z <? 0 then PrimFloat.opp (PrimFloat.of_uint63 (Uint63.of_Z (- z)))
  else PrimFloat.of_uint63 (Uint63.of_Z z).

(** The double nearest to a rational: one IEEE division of its numerator by
    its denominator, both below 2^53 in absolute value. *)
Definition double_of_Q (q : Q) : PrimFloat.float :=
  PrimFloat.div (double_of_Z (Qnum q)) (double_of_Z (Z.pos (Qden q))).

(** IEEE binary64 addition, round to nearest even. *)
Definition binary64 : Numbers :=
  {| plus := fun a b =>
       Q_of_double (PrimFloat.add (double_of_Q a) (double_of_Q b)) |}.

(** An [onmessage] call suspended at [await decodeAudioData(...)]: what its
    closure holds ([ctx], the bytes handed to the decoder, [msg]), and the
    device time it read at line 391, kept for stating properties. *)
Record Suspended := {
  arrived : Q;
  heldContext : AudioContext;
  heldBytes : list byte;
  heldMessage : LiveServerMessage
}.

(** How the synchronous part of [onmessage] ends: the handler has run to its
    end, [decode] threw, or the handler is suspended at the [await]. *)
Inductive Await :=
| Finished
| Threw
| Awaiting (p : Suspended).

(** [onmessage] from its call to [await decodeAudioData(...)] (lines
    387-393).  [decode(base64Audio)] is evaluated before the call that is
    awaited.  Without an audio payload or an output context the handler does
    not suspend and goes on to the interruption block. *)
Definition onmessage_arrive (E : Env) (st : State) (now : Q)
    (msg : LiveServerMessage) : State * list Effect * Await :=
  match base64Audio msg, outputContextRef st with
  | Some base64, Some ctx =>
      if truthy base64 then
        let st := set_nextStartTimeRef (Qmax (nextStartTimeRef st) now) st in
        match decode E base64 with
        | None => (st, [], Threw)
        | Some bytes =>
            (st, [],
             Awaiting {| arrived := now; heldContext := ctx;
                         heldBytes := bytes; heldMessage := msg |})
        end
      else
        let (st', stops) := handleInterruption st msg in
        (st', stops, Finished)
  | _, _ =>
      let (st', stops) := handleInterruption st msg in (st', stops, Finished)
  end.

(** [onmessage] from the settlement of [decodeAudioData] to its end (lines
    400-417): nothing when the promise rejected; otherwise the source is
    started at the value [nextStartTime] has now, [nextStartTime] becomes
    the rounded sum of that value and the duration, and the interruption
    block runs. *)
Definition onmessage_settle (N : Numbers) (E : Env) (st : State)
    (p : Suspended) : State * list Effect * Completion :=
  match decodeAudioData E (heldBytes p) (heldContext p) 24000 1 with
  | None => (st, [], Rejected)
  | Some audioBuffer =>
      let source := fresh st in
      let st := set_fresh (S source) st in
      let startAt := nextStartTimeRef st in
      let st :=
        set_nextStartTimeRef (plus N startAt (duration audioBuffer)) st in
      let st := set_sourcesRef (set_add source (sourcesRef st)) st in
      let (st', stops) := handleInterruption st (heldMessage p) in
      (st', [CreateBufferSource (heldContext p) source;
             SourceStart source audioBuffer startAt] ++ stops, Normal)
  end.

(** The component together with the [onmessage] calls suspended at their
    [await], oldest first. *)
Record Loop := { component : State; suspended : list Suspended }.

(** One turn of the event loop: an event is delivered to its handler, or the
    suspended call number [k] resumes. *)
Inductive Turn :=
| Deliver (ev : Event)
| Resume (k : nat).

Definition drop_nth {A : Type} (k : nat) (l : list A) : list A :=
  firstn k l ++ skipn (S k) l.

Definition turn (N : Numbers) (E : Env) (l : Loop) (t : Turn)
  : Loop * list Effect :=
  match t with
  | Deliver (Message now msg) =>
      match onmessage_arrive E (component l) now msg with
      | (st, e, Awaiting p) =>
          ({| component := st; suspended := suspended l ++ [p] |}, e)
      | (st, e, _) => ({| component := st; suspended := suspended l |}, e)
      end
  | Deliver ev =>
      let (st, e) := step E (component l) ev in
      ({| component := st; suspended := suspended l |}, e)
  | Resume k =>
      match nth_error (suspended l) k with
      | Some p =>
          let '(st, e, _) := onmessage_settle N E (component l) p in
          ({| component := st; suspended := drop_nth k (suspended l) |}, e)
      | None => (l, [])
      end
  end.

Fixpoint turns (N : Numbers) (E : Env) (l : Loop) (ts : list Turn)
  : Loop * list Effect :=
  match ts with
  | [] => (l, [])
  | t :: rest =>
      let (l1, e1) := turn N E l t in
      let (l2, e2) := turns N E l1 rest in
      (l2, e1 ++ e2)
  end.

(** The component with no call suspended. *)
Definition idle (st : State) : Loop := {| component := st; suspended := [] |}.

(** Turns that never set the playback cursor back to 0: all but [start()]
    and the arrival of a message carrying the interruption flag. *)
Definition calm (t : Turn) : bool :=
  match t with
  | Deliver Start => false
  | Deliver (Message _ msg) => negb (is_true (interruptedFlag msg))
  | _ => true
  end.

Definition unflagged (p : Suspended) : bool :=
  negb (is_true (interruptedFlag (heldMessage p))).

(** Turns other than [start()], the only writer of the two context refs. *)
Definition no_restart (t : Turn) : bool :=
  match t with
  | Deliver Start => false
  | _ => true
  end.

(** Playback in sequence from a cursor: the first buffer starts at or after
    the cursor, each later one at or after the cursor the one before it
    left, the rounded sum of its start time and duration. *)
Fixpoint in_sequence (N : Numbers) (cursor : Q) (l : list (Q * Q)) : Prop :=
  match l with
  | [] => True
  | (startAt, d) :: rest =>
      (cursor <= startAt)%Q /\ in_sequence N (plus N startAt d) rest
  end.

(** No buffer's rounded end lies before its start. *)
Definition forward (N : Numbers) (l : list (Q * Q)) : Prop :=
  Forall (fun sd => (fst sd <= plus N (fst sd) (snd sd))%Q) l.

(** ** Sample turns *)

(** Two messages in flight together, at 1 s and 1 s + 2^-14 s, a capture
    window and an end of playback in between, and a third message at 5 s. *)
Definition in_flight : list Turn :=
  [Deliver (Message 1 audio3); Deliver (Message (16385 # 16384) audio6);
   Resume 0; Deliver (AudioProcess 4%nat [1 # 2; -1 # 4]%Q); Resume 0;
   Deliver (Ended 7%nat); Deliver (Message 5 audio3); Resume 0].

(** The call of [audio3] suspended since device time 1. *)
Definition awaiting3 : Suspended :=
  {| arrived := 1; heldContext := 3%nat;
     heldBytes := [x00; x00; x00; x00; x00; x00]; heldMessage := audio3 |}.

(** The same for [audio3_interrupt]. *)
Definition awaiting3_interrupt : Suspended :=
  {| arrived := 1; heldContext := 3%nat;
     heldBytes := [x00; x00; x00; x00; x00; x00];
     heldMessage := audio3_interrupt |}.

(** ** services/geminiService *)

Module GeminiService.

(** [ModelTier] and [ChatConfig] of types.ts. *)
Inductive ModelTier := FAST | STANDARD | PRO.

Record ChatConfig := {
  useSearch : bool;
  useMaps : bool;
  useThinking : bool;
  modelTier : ModelTier
}.

Record GeoLocation := { latitude : Q; longitude : Q }.

Record FileData := { data : string; mimeType : string }.

Inductive Tool := googleSearch | googleMaps.

(** A part of the request contents: [{ inlineData: { data, mimeType } }] or
    [{ text }]. *)
Inductive RequestPart :=
| InlinePart (file : FileData)
| TextPart (text : string).

(** The argument of [ai.models.generateContent]: [toolConfig] is the
    [retrievalConfig.latLng] when present, [thinkingConfig] the
    [thinkingBudget]. *)
Record Request := {
  model : string;
  contents : list RequestPart;
  tools : option (list Tool);
  toolConfig : option GeoLocation;
  thinkingConfig : option Z
}.

Definition is_FAST (t : ModelTier) : bool :=
  match t with FAST => true | _ => false end.

Definition is_PRO (t : ModelTier) : bool :=
  match t with PRO => true | _ => false end.

(** [generateChatResponse]: the request it hands to
    [ai.models.generateContent], whose response it returns as it is.  The
    [history] argument is accepted and not used. *)
Definition generateChatResponse (prompt : string)
    (history : list (string * list RequestPart)) (files : list FileData)
    (config : ChatConfig) (geoLocation : option GeoLocation) : Request :=
  let modelName := "gemini-2.5-flash"%string in
  let modelName :=
    if is_FAST (modelTier config) then "gemini-flash-lite-latest"%string
    else if is_PRO (modelTier config) || useThinking config
         then "gemini-3-pro-preview"%string
         else modelName in
  let tools := [] in
  let tools := if useSearch config then tools ++ [googleSearch] else tools in
  let tools := if useMaps config then tools ++ [googleMaps] else tools in
  let toolConfig :=
    match geoLocation with
    | Some g => if useMaps config then Some g else None
    | None => None
    end in
  let thinkingConfig :=
    if useThinking config
       && String.eqb modelName "gemini-3-pro-preview"%string
    then Some 32768 else None in
  let parts :=
    fold_left (fun parts f => parts ++ [InlinePart f]) files [] in
  let parts := parts ++ [TextPart prompt] in
  {| model := modelName;
     contents := parts;
     tools := if (0 <? length tools)%nat then Some tools else None;
     toolConfig := toolConfig;
     thinkingConfig := thinkingConfig |}.

(** *** Video generation *)

(** A video operation as [generateVeoVideo] reads it: [done], and
    [response?.generatedVideos?.[0]?.video?.uri]. *)
Record VideoOperation := { done : bool; uri : option string }.

(** [window.aistudio]: what [hasSelectedApiKey()] resolves to ([None] when
    the method is missing) and whether [openSelectKey] exists. *)
Record AIStudio := { hasSelectedApiKey : option bool; openSelectKey : bool }.

Record VideoConfig := { aspectRatio : string; resolution : string }.

(** Calls issued by [generateVeoVideo]. *)
Inductive VeoCall :=
| HasSelectedApiKey
| OpenSelectKey
| GenerateVideos (prompt : string) (image : option FileData)
    (config : VideoConfig)
| SetTimeout (ms : Z)
| GetVideosOperation
| Fetch (url : string).

(** How the call ends as far as the given poll responses reach: with the
    video bytes, with an error, or still polling. *)
Inductive Outcome :=
| Resolved (blob : string)
| Threw (message : string)
| Polling.

(** One round of the polling loop. *)
Definition one_poll : list VeoCall := [SetTimeout 5000; GetVideosOperation].

(** The key check at the head of [generateVeoVideo]. *)
Definition key_calls (aistudio : option AIStudio) : list VeoCall :=
  match aistudio with
  | Some studio =>
      match hasSelectedApiKey studio with
      | Some hasKey =>
          HasSelectedApiKey
            :: (if negb hasKey && openSelectKey studio
                then [OpenSelectKey] else [])
      | None => []
      end
  | None => []
  end.

(** [while (!operation.done) { await sleep 5 s; operation = await
    getVideosOperation }] over the responses that come in. *)
Fixpoint poll (operation : VideoOperation) (responses : list VideoOperation)
  : option VideoOperation * list VeoCall :=
  if done operation then (Some operation, [])
  else
    match responses with
    | [] => (None, one_poll)
    | next :: rest =>
        let (final, calls) := poll next rest in
        (final, one_poll ++ calls)
    end.

(** [generateVeoVideo], given what the platform answers: the key dialog
    state, the API key, the operation returned by [generateVideos], the
    responses to the polls, and the download ([ok] and the bytes).  The
    service calls themselves are taken to resolve. *)
Definition generateVeoVideo (prompt : string) (config : VideoConfig)
    (inputImage : option FileData) (aistudio : option AIStudio)
    (apiKey : string) (first : VideoOperation)
    (responses : list VideoOperation) (download : bool * string)
  : Outcome * list VeoCall :=
  let keyCalls := key_calls aistudio in
  let calls := keyCalls ++ [GenerateVideos prompt inputImage config] in
  let (final, polls) := poll first responses in
  let calls := calls ++ polls in
  match final with
  | None => (Polling, calls)
  | Some operation =>
      match uri operation with
      | Some (String c s) =>
          let videoUri := String c s in
          let calls := calls ++ [Fetch (videoUri ++ "&key=" ++ apiKey)] in
          if fst download then (Resolved (snd download), calls)
          else (Threw "Failed to download video bytes", calls)
      | _ => (Threw "No video generated", calls)
      end
  end.

Definition is_poll (c : VeoCall) : bool :=
  match c with GetVideosOperation => true | _ => false end.

Definition is_fetch (c : VeoCall) : bool :=
  match c with Fetch _ => true | _ => false end.

Definition is_generate (c : VeoCall) : bool :=
  match c with GenerateVideos _ _ _ => true | _ => false end.

Definition is_dialog (c : VeoCall) : bool :=
  match c with OpenSelectKey => true | _ => false end.

End GeminiService.

(** ** components/ChatInterface: sending a message *)

Module ChatInterface.

(** Fields of the transport library's [Part] and [Blob], under names that the
    records below do not reuse. *)
Definition partInlineData (p : Part) : option Blob := inlineData p.
Definition partText (p : Part) : option string := text p.
Definition blobData (b : Blob) : option string := data b.

Inductive Mode := CHAT | IMAGE_GEN | VIDEO_GEN.

Inductive Role := user | model.

(** [GroundingChunk] of types.ts, as far as it is displayed: URI and title of
    a web or maps source. *)
Record GroundingChunk := {
  web : option (string * string);
  maps : option (string * string)
}.

(** [Message] of types.ts; [audioData] and [isThinking] are never set. *)
Record Message := {
  id : string;
  role : Role;
  text : option string;
  image : option string;
  videoUri : option string;
  grounding : option (list GroundingChunk);
  timestamp : Z
}.

(** An attached file: base64 data, MIME type, preview URL. *)
Record FileItem := { data : string; mimeType : string; preview : string }.

Record ImageConfig := { aspectRatio : string; size : string }.

(** What [handleSend] reads of a [generateContent] response. *)
Record GroundingMetadata := { groundingChunks : option (list GroundingChunk) }.

Record Candidate := {
  content : option Content;
  groundingMetadata : option GroundingMetadata
}.

Record GenerateContentResponse := {
  responseText : option string;
  candidates : option (list Candidate)
}.

(** Settlement of an awaited call: its value, or the thrown error's
    [message]. *)
Inductive Settled (A : Type) :=
| Returned (a : A)
| Thrown (message : option string).

Arguments Returned {A} a.
Arguments Thrown {A} message.

(** Calls to services/geminiService. *)
Inductive ApiCall :=
| EditImage (prompt base64Image mime : string)
| GenerateChatResponse (request : GeminiService.Request)
| GenerateImage (prompt : string) (config : ImageConfig)
| GenerateVeoVideo (prompt : string) (config : GeminiService.VideoConfig)
    (inputImage : option GeminiService.FileData).

(** State of the component that [handleSend] reads or writes. *)
Record State := {
  messages : list Message;
  inputText : string;
  isLoading : bool;
  files : list FileItem;
  config : GeminiService.ChatConfig;
  imgConfig : ImageConfig;
  vidConfig : GeminiService.VideoConfig;
  location : option GeminiService.GeoLocation
}.

(** Platform functions: [String.prototype.trim] and [toLowerCase],
    [URL.createObjectURL], and [Date.now] by the number of the read. *)
Record Platform := {
  trim : string -> string;
  toLowerCase : string -> string;
  createObjectURL : string -> string;
  now : nat -> Z
}.

Definition toString (n : Z) : string :=
  DecimalString.NilZero.string_of_int (Z.to_int n).

(** [s.includes(sub)] and [s.startsWith(pre)]. *)
Definition includes (s sub : string) : bool :=
  match index 0 sub s with Some _ => true | None => false end.

Definition startsWith (s pre : string) : bool := prefix pre s.

(** [s || fallback] on strings. *)
Definition orElse (s fallback : string) : string :=
  if truthy s then s else fallback.

Definition toFileData (f : FileItem) : GeminiService.FileData :=
  {| GeminiService.data := data f; GeminiService.mimeType := mimeType f |}.

(** [res.candidates?.[0]?.content?.parts || []] *)
Definition responseParts (res : GenerateContentResponse) : list Part :=
  match candidates res ?. (fun cs => nth_error cs 0) ?. content ?. parts with
  | Some ps => ps
  | None => []
  end.

(** The loop over the parts of an edit response:
    [if (part.inlineData) ... else if (part.text) ...]. *)
Definition editStep (acc : string * option string) (part : Part)
  : string * option string :=
  match partInlineData part with
  | Some blob => (fst acc, blobData blob)
  | None =>
      match partText part with
      | Some s => if truthy s then ((fst acc ++ s)%string, snd acc) else acc
      | None => acc
      end
  end.

(** The loop over the parts of an image-generation response:
    [if (part.inlineData) ...; if (part.text) ...]. *)
Definition imageStep (acc : string * option string) (part : Part)
  : string * option string :=
  let acc :=
    match partInlineData part with
    | Some blob => (fst acc, blobData blob)
    | None => acc
    end in
  match partText part with
  | Some s => if truthy s then ((fst acc ++ s)%string, snd acc) else acc
  | None => acc
  end.

(** What the [try] block has gathered for the reply. *)
Record Reply := {
  replyText : string;
  generatedImage : option string;
  replyVideo : option string;
  groundingData : option (list GroundingChunk)
}.

(** The [try] block of [handleSend]: the one call it makes, and what it
    gathers from the settlement of that call. *)
Definition respond (P : Platform) (mode : Mode) (st : State)
    (contentResult : Settled GenerateContentResponse)
    (videoResult : Settled string) : Settled Reply * list ApiCall :=
  let currentFiles := files st in
  match mode with
  | CHAT =>
      let isEdit :=
        (0 <? length currentFiles)%nat
        && includes (toLowerCase P (inputText st)) "edit" in
      match isEdit, currentFiles with
      | true, file :: _ =>
          (match contentResult with
           | Returned res =>
               let acc :=
                 fold_left editStep (responseParts res) (""%string, None) in
               Returned {| replyText := fst acc; generatedImage := snd acc;
                           replyVideo := None; groundingData := None |}
           | Thrown m => Thrown m
           end,
           [EditImage (orElse (inputText st) "Edit this image")
              (data file) (mimeType file)])
      | _, _ =>
          (match contentResult with
           | Returned res =>
               Returned
                 {| replyText :=
                      match responseText res with
                      | Some s => orElse s ""
                      | None => ""%string
                      end;
                    generatedImage := None;
                    replyVideo := None;
                    groundingData :=
                      candidates res ?. (fun cs => nth_error cs 0)
                        ?. groundingMetadata ?. groundingChunks |}
           | Thrown m => Thrown m
           end,
           [GenerateChatResponse
              (GeminiService.generateChatResponse (orElse (inputText st) "")
                 [] (map toFileData currentFiles) (config st) (location st))])
      end
  | IMAGE_GEN =>
      (match contentResult with
       | Returned res =>
           let acc :=
             fold_left imageStep (responseParts res) (""%string, None) in
           Returned {| replyText := fst acc; generatedImage := snd acc;
                       replyVideo := None; groundingData := None |}
       | Thrown m => Thrown m
       end,
       [GenerateImage (orElse (inputText st) "Generate an image")
          (imgConfig st)])
  | VIDEO_GEN =>
      (match videoResult with
       | Returned blob =>
           Returned
             {| replyText := "Here is your generated video using Veo 3.";
                generatedImage := None;
                replyVideo := Some (createObjectURL P blob);
                groundingData := None |}
       | Thrown m => Thrown m
       end,
       [GenerateVeoVideo (orElse (inputText st) "Generate video")
          (vidConfig st)
          (match currentFiles with
           | file :: _ => Some (toFileData file)
           | [] => None
           end)])
  end.

Definition with_messages (ms : list Message) (input : string)
    (loading : bool) (fs : list FileItem) (st : State) : State :=
  {| messages := ms; inputText := input; isLoading := loading; files := fs;
     config := config st; imgConfig := imgConfig st;
     vidConfig := vidConfig st; location := location st |}.

(** [handleSend], from the click to the [finally] block. *)
Definition handleSend (P : Platform) (mode : Mode) (st : State)
    (contentResult : Settled GenerateContentResponse)
    (videoResult : Settled string) : State * list ApiCall :=
  if (negb (truthy (trim P (inputText st)))
      && (length (files st) =? 0)%nat)
     || isLoading st
  then (st, [])
  else
    let userMsg :=
      {| id := toString (now P 0);
         role := user;
         text := Some (inputText st);
         image :=
           option_map data
             (find (fun f => startsWith (mimeType f) "image") (files st));
         videoUri := None;
         grounding := None;
         timestamp := now P 1 |} in
    let (outcome, calls) := respond P mode st contentResult videoResult in
    let reply :=
      match outcome with
      | Returned r =>
          {| id := toString (now P 2 + 1);
             role := model;
             text := Some (replyText r);
             image := generatedImage r;
             videoUri := replyVideo r;
             grounding := groundingData r;
             timestamp := now P 3 |}
      | Thrown m =>
          {| id := toString (now P 2);
             role := model;
             text :=
               Some ("Error: "
                     ++ orElse (match m with Some s => s | None => "" end)
                          "Something went wrong.")%string;
             image := None;
             videoUri := None;
             grounding := None;
             timestamp := now P 3 |}
      end in
    (with_messages (messages st ++ [userMsg] ++ [reply]) "" false [] st,
     calls).

(** The send button's [disabled] attribute. *)
Definition sendDisabled (st : State) : bool :=
  isLoading st || (negb (truthy (inputText st)) && (length (files st) =? 0)%nat).

(** Texts of the parts, in order, the empty ones left out. *)
Definition partTexts (ps : list Part) : list string :=
  flat_map
    (fun p =>
       match partText p with
       | Some s => if truthy s then [s] else []
       | None => []
       end) ps.

(** Strings appended in order. *)
Definition joined (l : list string) : string := fold_right append ""%string l.

Definition hasInline (p : Part) : bool :=
  match partInlineData p with Some _ => true | None => false end.

(** Data of the last part that carries inline data. *)
Definition lastInline (ps : list Part) : option string :=
  match rev (filter hasInline ps) with
  | p :: _ => partInlineData p ?. blobData
  | [] => None
  end.

(** How [generateVeoVideo] settles for its caller; nothing while it is still
    polling. *)
Definition settle (o : GeminiService.Outcome) : option (Settled string) :=
  match o with
  | GeminiService.Resolved blob => Some (Returned blob)
  | GeminiService.Threw m => Some (Thrown (Some m))
  | GeminiService.Polling => None
  end.

(** Stands for "no message" where the last message of a list is taken. *)
Definition noMessage : Message :=
  {| id := ""; role := user; text := None; image := None; videoUri := None;
     grounding := None; timestamp := 0 |}.

(** The guard at the head of [handleSend]. *)
Definition refused (P : Platform) (st : State) : bool :=
  (negb (truthy (trim P (inputText st))) && (length (files st) =? 0)%nat)
  || isLoading st.

End ChatInterface.

(** ** Sample requests and chats *)

(** A concrete platform for ASCII text: white space is blank, tab, line
    feed, vertical tab, form feed and carriage return; letters A to Z are
    lowered. *)
Definition isSpace (c : ascii) : bool :=
  let n := N_of_ascii c in ((n =? 32) || ((9 <=? n) && (n <=? 13)))%N.

Fixpoint trimStart (s : string) : string :=
  match s with
  | EmptyString => EmptyString
  | String c rest => if isSpace c then trimStart rest else s
  end.

Fixpoint trimEnd (s : string) : string :=
  match s with
  | EmptyString => EmptyString
  | String c rest =>
      match trimEnd rest with
      | EmptyString => if isSpace c then EmptyString else String c EmptyString
      | t => String c t
      end
  end.

Definition lowerChar (c : ascii) : ascii :=
  let n := N_of_ascii c in
  if ((65 <=? n) && (n <=? 90))%N then ascii_of_N (n + 32) else c.

Fixpoint lower (s : string) : string :=
  match s with
  | EmptyString => EmptyString
  | String c rest => String (lowerChar c) (lower rest)
  end.

Definition asciiPlatform : ChatInterface.Platform :=
  {| ChatInterface.trim := fun s => trimEnd (trimStart s);
     ChatInterface.toLowerCase := lower;
     ChatInterface.createObjectURL := fun blob => ("blob:" ++ blob)%string;
     ChatInterface.now := fun k => 1700000000000 + Z.of_nat k |}.

Definition photo : ChatInterface.FileItem :=
  {| ChatInterface.data := "iVBORw0KGgo=";
     ChatInterface.mimeType := "image/png";
     ChatInterface.preview := "data:image/png;base64,iVBORw0KGgo=" |}.

Definition standard : GeminiService.ChatConfig :=
  {| GeminiService.useSearch := true; GeminiService.useMaps := true;
     GeminiService.useThinking := true;
     GeminiService.modelTier := GeminiService.STANDARD |}.

Definition fast : GeminiService.ChatConfig :=
  {| GeminiService.useSearch := false; GeminiService.useMaps := false;
     GeminiService.useThinking := true;
     GeminiService.modelTier := GeminiService.FAST |}.

Definition here : GeminiService.GeoLocation :=
  {| GeminiService.latitude := 52 # 1; GeminiService.longitude := 13 # 1 |}.

Definition landscape : GeminiService.VideoConfig :=
  {| GeminiService.aspectRatio := "16:9";
     GeminiService.resolution := "720p" |}.

(** A chat with the greeting only, the given text typed and files attached. *)
Definition typing (input : string) (fs : list ChatInterface.FileItem)
  : ChatInterface.State :=
  {| ChatInterface.messages :=
       [{| ChatInterface.id := "1"; ChatInterface.role := ChatInterface.model;
           ChatInterface.text :=
             Some "Hello! I am Nano-Banana. How can I assist you today?"%string;
           ChatInterface.image := None; ChatInterface.videoUri := None;
           ChatInterface.grounding := None;
           ChatInterface.timestamp := 1700000000000 |}];
     ChatInterface.inputText := input;
     ChatInterface.isLoading := false;
     ChatInterface.files := fs;
     ChatInterface.config := standard;
     ChatInterface.imgConfig :=
       {| ChatInterface.aspectRatio := "1:1"; ChatInterface.size := "1K" |};
     ChatInterface.vidConfig := landscape;
     ChatInterface.location := Some here |}.

(** A response of three parts: a caption, an image with a note of its own,
    and a second image. *)
Definition picture_response : ChatInterface.GenerateContentResponse :=
  {| ChatInterface.responseText := None;
     ChatInterface.candidates :=
       Some [{| ChatInterface.content :=
                  Some {| parts :=
                    Some [{| inlineData := None; text := Some "Here: "%string |};
                          {| inlineData :=
                               Some {| data := Some "AAAA"%string;
                                       mimeType := Some "image/png"%string |};
                             text := Some "first"%string |};
                          {| inlineData :=
                               Some {| data := Some "BBBB"%string;
                                       mimeType := Some "image/png"%string |};
                             text := None |}] |};
                ChatInterface.groundingMetadata := None |}] |}.

Definition unfinished : GeminiService.VideoOperation :=
  {| GeminiService.done := false; GeminiService.uri := None |}.

Definition finished (u : option string) : GeminiService.VideoOperation :=
  {| GeminiService.done := true; GeminiService.uri := u |}.

Definition no_key_studio : GeminiService.AIStudio :=
  {| GeminiService.hasSelectedApiKey := Some false;
     GeminiService.openSelectKey := true |}.

(** * Properties *)

(** ** Bytes and the PCM codec *)

Lemma byte_to_Z_range (b : byte) : 0 <= byte_to_Z b < 256.
Proof.
  unfold byte_to_Z. pose proof (Byte.to_N_bounded b). lia.
Qed.

Lemma byte_to_of_Z (z : Z) : byte_to_Z (byte_of_Z z) = z mod 256.
Proof.
  unfold byte_to_Z, byte_of_Z.
  pose proof (Z.mod_pos_bound z 256 eq_refl) as Hr.
  destruct (Byte.of_N (Z.to_N (z mod 256))) as [b|] eqn:E.
  - apply Byte.to_of_N in E. rewrite E. lia.
  - apply Byte.of_N_None_iff in E. lia.
Qed.

Lemma clamp_range (v : Z) : PCM.INT16_MIN <= PCM.clamp v <= PCM.INT16_MAX.
Proof. unfold PCM.clamp, PCM.INT16_MIN, PCM.INT16_MAX. lia. Qed.

Lemma clamp_id (v : Z) :
  PCM.INT16_MIN <= v <= PCM.INT16_MAX -> PCM.clamp v = v.
Proof. unfold PCM.clamp, PCM.INT16_MIN, PCM.INT16_MAX. lia. Qed.

Lemma int16_wrap_inv (v : Z) :
  PCM.INT16_MIN <= v <= PCM.INT16_MAX ->
  (if 32768 <=? v mod 65536 then v mod 65536 - 65536 else v mod 65536) = v.
Proof.
  unfold PCM.INT16_MIN, PCM.INT16_MAX. intros Hv.
  set (u := v mod 65536).
  destruct (Z_lt_le_dec v 0) as [Hneg|Hnn].
  - assert (Hu : u = v + 65536).
    { unfold u. rewrite <- (Z_mod_plus_full v 1 65536).
      apply Z.mod_small. lia. }
    rewrite Hu. destruct (Z.leb_spec 32768 (v + 65536)); lia.
  - assert (Hu : u = v) by (apply Z.mod_small; lia).
    rewrite Hu. destruct (Z.leb_spec 32768 v); lia.
Qed.

Lemma int16_bytes_inv (v : Z) :
  PCM.INT16_MIN <= v <= PCM.INT16_MAX ->
  exists lo hi, PCM.int16_bytes v = [lo; hi] /\ PCM.int16_of_bytes lo hi = v.
Proof.
  intros Hv. eexists _, _. split; [reflexivity|].
  unfold PCM.int16_of_bytes. cbv zeta. rewrite !byte_to_of_Z.
  pose proof (Z.mod_pos_bound v 65536 eq_refl) as Hu.
  assert (Hhi : (v mod 65536 / 256) mod 256 = v mod 65536 / 256).
  { apply Z.mod_small. split.
    - apply Z.div_pos; lia.
    - apply Z.div_lt_upper_bound; lia. }
  rewrite Hhi, Z.mod_mod by lia.
  assert (Hsplit : (v mod 65536) mod 256 + 256 * (v mod 65536 / 256)
                   = v mod 65536).
  { pose proof (Z.div_mod (v mod 65536) 256). lia. }
  rewrite Hsplit. exact (int16_wrap_inv v Hv).
Qed.

Lemma decode_encode (s : list Q) :
  PCM.decode (PCM.encode s) = Some (map PCM.quantize s).
Proof.
  induction s as [|x s IH]; [reflexivity|].
  destruct (int16_bytes_inv (PCM.quantize x) (clamp_range _))
    as (lo & hi & Hb & Hv).
  unfold PCM.encode in *. cbn [flat_map map]. rewrite Hb.
  cbn [app PCM.decode]. rewrite IH, Hv. reflexivity.
Qed.

Lemma scale_in_range (x : Q) :
  (-1 <= x)%Q -> (x < 1)%Q ->
  PCM.INT16_MIN <= PCM.scale x <= PCM.INT16_MAX.
Proof.
  unfold PCM.scale, PCM.INT16_MIN, PCM.INT16_MAX, Qle, Qlt.
  destruct x as [n d]. cbn [Qnum Qden]. intros Hlo Hhi.
  assert (Hd : 0 < Z.pos d) by lia.
  split.
  - apply Z.quot_le_lower_bound; [assumption|]. lia.
  - destruct (Z_lt_le_dec n 0) as [Hneg|Hnn].
    + assert (Z.quot (n * 32768) (Z.pos d) <= 0); [|lia].
      apply Z.quot_le_upper_bound; [assumption|]. lia.
    + assert (Z.quot (n * 32768) (Z.pos d) < 32768); [|lia].
      apply Z.quot_lt_upper_bound; lia.
Qed.

Lemma quantize_linear (x : Q) :
  (-1 <= x)%Q -> (x < 1)%Q -> PCM.quantize x = PCM.scale x.
Proof.
  intros Hlo Hhi. apply clamp_id, scale_in_range; assumption.
Qed.

Lemma quantize_high (x : Q) : (1 <= x)%Q -> PCM.quantize x = PCM.INT16_MAX.
Proof.
  unfold PCM.quantize, PCM.clamp, PCM.scale, PCM.INT16_MIN, PCM.INT16_MAX, Qle.
  destruct x as [n d]. cbn [Qnum Qden]. intros H.
  assert (32768 <= Z.quot (n * 32768) (Z.pos d)); [|lia].
  apply Z.quot_le_lower_bound; lia.
Qed.

Lemma quantize_low (x : Q) : (x <= -1)%Q -> PCM.quantize x = PCM.INT16_MIN.
Proof.
  unfold PCM.quantize, PCM.clamp, PCM.scale, PCM.INT16_MIN, PCM.INT16_MAX, Qle.
  destruct x as [n d]. cbn [Qnum Qden]. intros H.
  assert (Z.quot (n * 32768) (Z.pos d) <= -32768); [|lia].
  apply Z.quot_le_upper_bound; lia.
Qed.

(** C5. For every sequence of samples, out-of-range ones included, [encode]
    yields two bytes per sample holding the linearly scaled value clamped to
    the 16-bit extremes, and [decode (encode s)] is exactly the sequence of
    quantized values of [s]; 1.5 goes to the largest and -2.0 to the smallest
    16-bit integer, and a sample inside [-1,1) is scaled without clamping. *)
Theorem pcm_round_trip (s : list Q) :
  PCM.decode (PCM.encode s) = Some (map PCM.quantize s)
  /\ Forall (fun v => PCM.INT16_MIN <= v <= PCM.INT16_MAX) (map PCM.quantize s)
  /\ length (PCM.encode s) = (2 * length s)%nat
  /\ PCM.quantize (3 # 2) = PCM.INT16_MAX
  /\ PCM.quantize (-2 # 1) = PCM.INT16_MIN
  /\ (forall x, (1 <= x)%Q -> PCM.quantize x = PCM.INT16_MAX)
  /\ (forall x, (x <= -1)%Q -> PCM.quantize x = PCM.INT16_MIN)
  /\ (forall x, (-1 <= x)%Q -> (x < 1)%Q -> PCM.quantize x = PCM.scale x).
Proof.
  split; [apply decode_encode|].
  split.
  { apply Forall_forall. intros v Hin. apply in_map_iff in Hin.
    destruct Hin as (x & <- & _). apply clamp_range. }
  split.
  { induction s as [|x s IH]; [reflexivity|].
    unfold PCM.encode in *. cbn [flat_map]. rewrite length_app, IH.
    cbn [PCM.int16_bytes length]. lia. }
  split; [reflexivity|]. split; [reflexivity|].
  split; [exact quantize_high|]. split; [exact quantize_low|].
  exact quantize_linear.
Qed.

Lemma pcm_round_trip_witness :
  PCM.decode (PCM.encode [3 # 2; -2 # 1; 1 # 2; -1 # 3; 0 # 1])
  = Some [32767; -32768; 16384; -10922; 0]
  /\ PCM.quantize (7 # 4) = 32767
  /\ PCM.quantize (-5 # 4) = -32768
  /\ PCM.quantize (1 # 2) = 16384.
Proof.
  destruct (pcm_round_trip [3 # 2; -2 # 1; 1 # 2; -1 # 3; 0 # 1])
    as (Hrt & _ & _ & _ & _ & Hhi & Hlo & Hlin).
  split; [exact Hrt|].
  split; [apply Hhi; unfold Qle; simpl; lia|].
  split; [apply Hlo; unfold Qle; simpl; lia|].
  rewrite Hlin; [reflexivity | unfold Qle; simpl; lia | unfold Qlt; simpl; lia].
Defined.

(** ** Playback scheduling *)

Lemma starts_app (e1 e2 : list Effect) :
  starts (e1 ++ e2) = starts e1 ++ starts e2.
Proof.
  induction e1 as [|e e1 IH]; [reflexivity|].
  destruct e; cbn [app starts]; rewrite ?IH; reflexivity.
Qed.

Lemma starts_none (es : list Effect) :
  (forall e, In e es -> is_start e = false) -> starts es = [].
Proof.
  induction es as [|e es IH]; [reflexivity|]. intros H.
  assert (He : is_start e = false) by (apply H; left; reflexivity).
  destruct e; try discriminate He; cbn [starts]; apply IH;
    intros e' He'; apply H; right; exact He'.
Qed.


Lemma run_cons (E : Env) (st : State) (ev : Event) (rest : list Event) :
  run E st (ev :: rest)
  = (fst (run E (fst (step E st ev)) rest),
     snd (step E st ev) ++ snd (run E (fst (step E st ev)) rest)).
Proof.
  cbn [run]. destruct (step E st ev) as [st1 e1]. cbn [fst snd].
  destruct (run E st1 rest) as [st2 e2]. reflexivity.
Qed.


(** *** The event loop *)

Lemma turns_cons (N : Numbers) (E : Env) (l : Loop) (t : Turn)
    (rest : list Turn) :
  turns N E l (t :: rest)
  = (fst (turns N E (fst (turn N E l t)) rest),
     snd (turn N E l t) ++ snd (turns N E (fst (turn N E l t)) rest)).
Proof.
  cbn [turns]. destruct (turn N E l t) as [l1 e1]. cbn [fst snd].
  destruct (turns N E l1 rest) as [l2 e2]. reflexivity.
Qed.

Lemma turns_app (N : Numbers) (E : Env) (ts1 ts2 : list Turn) :
  forall l,
  turns N E l (ts1 ++ ts2)
  = (fst (turns N E (fst (turns N E l ts1)) ts2),
     snd (turns N E l ts1) ++ snd (turns N E (fst (turns N E l ts1)) ts2)).
Proof.
  induction ts1 as [|t ts1 IH]; intros l.
  - cbn [app turns fst snd]. destruct (turns N E l ts2). reflexivity.
  - cbn [app]. rewrite !turns_cons, IH. cbn [fst snd].
    rewrite app_assoc. reflexivity.
Qed.

(** With nothing suspended, exact sums and the decoder settling before any
    other turn, the two halves make up [onmessage]. *)
Lemma onmessage_unsuspended (E : Env) (st : State) (now : Q)
    (msg : LiveServerMessage) :
  let r := turns unrounded E (idle st) [Deliver (Message now msg); Resume 0] in
  component (fst r) = fst (onmessage E st now msg)
  /\ suspended (fst r) = []
  /\ snd r = snd (onmessage E st now msg).
Proof.
  cbv zeta. rewrite !turns_cons. cbn [turns fst snd turn idle component
    suspended]. rewrite !app_nil_r.
  unfold onmessage, handleAudioOutput, onmessage_arrive, decoded.
  destruct (base64Audio msg) as [base64|];
    [destruct (outputContextRef st) as [ctx|]; [destruct (truthy base64)|]|].
  - destruct (decode E base64) as [bytes|]; cbn [fst snd component suspended
      app nth_error]; [|rewrite ?app_nil_r; repeat split].
    unfold onmessage_settle. cbn [heldBytes heldContext heldMessage].
    destruct (decodeAudioData E bytes ctx 24000 1) as [buf|];
      cbn [fst snd component suspended app nth_error plus unrounded
           nextStartTimeRef set_nextStartTimeRef set_fresh];
      [|repeat split].
    destruct (handleInterruption _ msg) as [st' stops].
    cbn [fst snd component suspended]. repeat split.
  - destruct (handleInterruption st msg) as [st' stops].
    cbn [fst snd component suspended app nth_error].
    rewrite ?app_nil_r. repeat split.
  - destruct (handleInterruption st msg) as [st' stops].
    cbn [fst snd component suspended app nth_error].
    rewrite ?app_nil_r. repeat split.
  - destruct (handleInterruption st msg) as [st' stops].
    cbn [fst snd component suspended app nth_error].
    rewrite ?app_nil_r. repeat split.
Qed.

(** Every handler but [start()] and the message handler starts nothing and
    leaves the playback cursor alone. *)
Lemma step_cursor (E : Env) (st : State) (ev : Event) :
  match ev with
  | Start | Message _ _ => True
  | _ =>
      starts (snd (step E st ev)) = []
      /\ nextStartTimeRef (fst (step E st ev)) = nextStartTimeRef st
  end.
Proof.
  destruct ev as [|r|session stream|now msg| |e|session w|session frame|src|];
    cbn [step]; try exact I.
  - destruct r as [stream|reason]; cbn [startSession_resume].
    + split; [|reflexivity]. cbn [snd]. apply starts_none.
      intros e He. apply in_app_or in He. destruct He as [He|[<-|[]]];
        [|reflexivity].
      cbn [videoRef set_streamRef] in He.
      destruct (videoRef st); [destruct He as [<-|[]]; reflexivity|destruct He].
    + split; reflexivity.
  - unfold onopen, startVideoStreaming.
    cbn [inputContextRef set_isConnected videoRef canvasRef].
    destruct (inputContextRef st), (videoRef st), (canvasRef st);
      split; reflexivity.
  - split; reflexivity.
  - split; reflexivity.
  - split; reflexivity.
  - destruct frame; split; reflexivity.
  - split; reflexivity.
  - split; [|reflexivity]. unfold stopSession. cbn [snd].
    apply starts_none. intros e He.
    repeat (apply in_app_or in He; destruct He as [He|He]).
    + destruct (sessionRef st); [destruct He as [<-|[]]; reflexivity|].
      destruct He.
    + destruct (streamRef st); [|destruct He].
      apply in_map_iff in He. destruct He as (? & <- & _). reflexivity.
    + destruct (inputContextRef st); [destruct He as [<-|[]]; reflexivity|].
      destruct He.
    + destruct (outputContextRef st); [destruct He as [<-|[]]; reflexivity|].
      destruct He.
    + destruct (frameIntervalRef st) as [[|?]|]; try destruct He as [<-|[]];
        try destruct He; reflexivity.
Qed.

Lemma in_drop_nth {A : Type} (k : nat) (l : list A) (x : A) :
  In x (drop_nth k l) -> In x l.
Proof.
  unfold drop_nth. intros H. apply in_app_or in H. destruct H as [H|H].
  - rewrite <- (firstn_skipn k l). apply in_or_app. left. exact H.
  - rewrite <- (firstn_skipn (S k) l). apply in_or_app. right. exact H.
Qed.

(** The arrival of a message that is not flagged: nothing is started, the
    cursor is raised, and a call that suspends read a device time at or
    below the raised cursor. *)
Lemma arrive_calm (E : Env) (st : State) (now : Q) (msg : LiveServerMessage) :
  is_true (interruptedFlag msg) = false ->
  let r := onmessage_arrive E st now msg in
  snd (fst r) = []
  /\ (nextStartTimeRef st <= nextStartTimeRef (fst (fst r)))%Q
  /\ (forall p, snd r = Awaiting p ->
        unflagged p = true
        /\ (arrived p <= nextStartTimeRef (fst (fst r)))%Q).
Proof.
  intros Hflag. unfold onmessage_arrive, handleInterruption. rewrite Hflag.
  destruct (base64Audio msg) as [base64|];
    [destruct (outputContextRef st) as [ctx|]; [destruct (truthy base64)|]|];
    try (cbn [fst snd]; split; [reflexivity|];
         split; [apply Qle_refl|discriminate]).
  destruct (decode E base64) as [bytes|]; cbn [fst snd nextStartTimeRef
    set_nextStartTimeRef]; (split; [reflexivity|]);
    (split; [apply Q.le_max_l|]); [|discriminate].
  intros p Hp. injection Hp as <-. unfold unflagged.
  cbn [heldMessage arrived]. rewrite Hflag. split; [reflexivity|].
  apply Q.le_max_r.
Qed.

(** The resumption of a call whose message is not flagged: nothing happens
    when the decoder rejected; otherwise one buffer is started at the
    cursor, which moves to the rounded sum. *)
Lemma settle_calm (N : Numbers) (E : Env) (st : State) (p : Suspended) :
  unflagged p = true ->
  let r := onmessage_settle N E st p in
  (decodeAudioData E (heldBytes p) (heldContext p) 24000 1 = None
   /\ r = (st, [], Rejected))
  \/ (exists buf,
        decodeAudioData E (heldBytes p) (heldContext p) 24000 1 = Some buf
        /\ snd (fst r)
           = [CreateBufferSource (heldContext p) (fresh st);
              SourceStart (fresh st) buf (nextStartTimeRef st)]
        /\ nextStartTimeRef (fst (fst r))
           = plus N (nextStartTimeRef st) (duration buf)).
Proof.
  unfold unflagged. intros Hflag. apply negb_true_iff in Hflag.
  unfold onmessage_settle, handleInterruption. rewrite Hflag.
  destruct (decodeAudioData E (heldBytes p) (heldContext p) 24000 1)
    as [buf|]; [right|left; split; reflexivity].
  exists buf. split; [reflexivity|]. split; reflexivity.
Qed.

(** One calm turn, all suspended calls unflagged. *)
Lemma turn_calm (N : Numbers) (E : Env) (l : Loop) (t : Turn) :
  calm t = true ->
  Forall (fun p => unflagged p = true) (suspended l) ->
  let r := turn N E l t in
  (forall p, In p (suspended (fst r)) ->
     unflagged p = true
     /\ (In p (suspended l)
         \/ (arrived p <= nextStartTimeRef (component (fst r)))%Q))
  /\ ((starts (snd r) = []
       /\ (nextStartTimeRef (component l)
           <= nextStartTimeRef (component (fst r)))%Q)
      \/ (exists d,
            starts (snd r) = [(nextStartTimeRef (component l), d)]
            /\ nextStartTimeRef (component (fst r))
               = plus N (nextStartTimeRef (component l)) d)).
Proof.
  intros Hcalm Hsus. rewrite Forall_forall in Hsus.
  destruct t as [ev|k].
  - assert (Hother :
      match ev with Start | Message _ _ => True | _ =>
        turn N E l (Deliver ev)
        = ({| component := fst (step E (component l) ev);
              suspended := suspended l |}, snd (step E (component l) ev))
      end).
    { destruct ev; try exact I; cbn [turn];
        destruct (step E (component l) _); reflexivity. }
    pose proof (step_cursor E (component l) ev) as Hc.
    destruct ev as [|r|session stream|now msg| |e|session w|session frame|src|];
      try discriminate Hcalm;
      try (rewrite Hother; cbn [fst snd component suspended];
           destruct Hc as [Hs Hn]; split;
           [intros p Hp; split; [apply Hsus, Hp|left; exact Hp]
           |left; split; [exact Hs|rewrite Hn; apply Qle_refl]]).
    clear Hother Hc.
    cbn [calm] in Hcalm. apply negb_true_iff in Hcalm.
    pose proof (arrive_calm E (component l) now msg Hcalm) as H.
    cbv zeta in H. cbn [turn].
    destruct (onmessage_arrive E (component l) now msg) as [[st e] a].
    cbn [fst snd] in H. destruct H as (He & Hle & Hp). subst e.
    destruct a as [| |p]; cbn [fst snd component suspended starts];
      (split; [|left; split; [reflexivity|exact Hle]]);
      intros q Hq; try (split; [apply Hsus, Hq|left; exact Hq]).
    apply in_app_or in Hq. destruct Hq as [Hq|[<-|[]]].
    + split; [apply Hsus, Hq|left; exact Hq].
    + destruct (Hp p eq_refl) as [Hu Ha]. split; [exact Hu|right; exact Ha].
  - cbn [turn]. destruct (nth_error (suspended l) k) as [p|] eqn:Hk.
    + assert (Hin : In p (suspended l)) by (eapply nth_error_In; exact Hk).
      pose proof (settle_calm N E (component l) p (Hsus p Hin)) as H.
      cbv zeta in H.
      destruct (onmessage_settle N E (component l) p) as [[st e] c].
      cbn [fst snd component suspended] in *. split.
      * intros q Hq. apply in_drop_nth in Hq.
        split; [apply Hsus, Hq|left; exact Hq].
      * destruct H as [[_ H]|(buf & _ & He & Hn)].
        -- injection H as -> -> _. left. split; [reflexivity|apply Qle_refl].
        -- subst e. right. exists (duration buf). split; [reflexivity|exact Hn].
    + cbn [fst snd]. split.
      * intros q Hq. split; [apply Hsus, Hq|left; exact Hq].
      * left. split; [reflexivity|apply Qle_refl].
Qed.

Lemma in_sequence_weaken (N : Numbers) (c c' : Q) (l : list (Q * Q)) :
  (c' <= c)%Q -> in_sequence N c l -> in_sequence N c' l.
Proof.
  destruct l as [|[t d] l]; [trivial|].
  cbn [in_sequence]. intros Hc [Ht Hl]. split; [|exact Hl].
  eapply Qle_trans; eassumption.
Qed.

Lemma turns_unflagged (N : Numbers) (E : Env) (ts : list Turn) :
  Forall (fun t => calm t = true) ts ->
  forall l, Forall (fun p => unflagged p = true) (suspended l) ->
  Forall (fun p => unflagged p = true) (suspended (fst (turns N E l ts))).
Proof.
  induction 1 as [|t rest Hc _ IH]; intros l Hl; [exact Hl|].
  rewrite turns_cons. cbn [fst]. apply IH. apply Forall_forall.
  intros p Hp. apply (proj1 (turn_calm N E l t Hc Hl)) in Hp. apply Hp.
Qed.

Lemma turns_in_sequence (N : Numbers) (E : Env) (ts : list Turn) :
  Forall (fun t => calm t = true) ts ->
  forall l, Forall (fun p => unflagged p = true) (suspended l) ->
  in_sequence N (nextStartTimeRef (component l))
    (starts (snd (turns N E l ts))).
Proof.
  induction 1 as [|t rest Hc Hrest IH]; intros l Hl; [exact I|].
  rewrite turns_cons. cbn [snd]. rewrite starts_app.
  assert (Hl' : Forall (fun p => unflagged p = true)
                  (suspended (fst (turn N E l t)))).
  { apply Forall_forall. intros p Hp.
    apply (proj1 (turn_calm N E l t Hc Hl)) in Hp. apply Hp. }
  destruct (proj2 (turn_calm N E l t Hc Hl)) as [[Hs Hle]|(d & Hs & Hn)];
    rewrite Hs.
  - cbn [app]. eapply in_sequence_weaken; [exact Hle|apply IH; exact Hl'].
  - cbn [app in_sequence]. split; [apply Qle_refl|].
    rewrite <- Hn. apply IH. exact Hl'.
Qed.

(** While no buffer's rounded end lies before its start, the cursor stays at
    or above the device time every suspended call read. *)
Lemma turns_arrived (N : Numbers) (E : Env) (ts : list Turn) :
  Forall (fun t => calm t = true) ts ->
  forall l, Forall (fun p => unflagged p = true) (suspended l) ->
  forward N (starts (snd (turns N E l ts))) ->
  Forall (fun p => (arrived p <= nextStartTimeRef (component l))%Q)
    (suspended l) ->
  Forall
    (fun p =>
       (arrived p <= nextStartTimeRef (component (fst (turns N E l ts))))%Q)
    (suspended (fst (turns N E l ts))).
Proof.
  induction 1 as [|t rest Hc Hrest IH]; intros l Hl Hfw Harr; [exact Harr|].
  rewrite turns_cons in Hfw |- *. cbn [fst snd] in Hfw |- *.
  rewrite starts_app in Hfw. apply Forall_app in Hfw.
  destruct Hfw as [Hfw1 Hfw2].
  destruct (turn_calm N E l t Hc Hl) as [Hsus Hstep].
  apply IH; [|exact Hfw2|].
  - apply Forall_forall. intros p Hp. apply Hsus, Hp.
  - assert (Hle : (nextStartTimeRef (component l)
                   <= nextStartTimeRef (component (fst (turn N E l t))))%Q).
    { destruct Hstep as [[_ Hle]|(d & Hs & Hn)]; [exact Hle|].
      rewrite Hs in Hfw1. inversion Hfw1 as [|? ? Hd _]. cbn [fst snd] in Hd.
      rewrite Hn. exact Hd. }
    apply Forall_forall. intros p Hp.
    destruct (Hsus p Hp) as [_ [Hold|Hnew]]; [|exact Hnew].
    rewrite Forall_forall in Harr. eapply Qle_trans; [apply Harr, Hold|exact Hle].
Qed.

Lemma calm_in (ts pre post : list Turn) (t : Turn) :
  Forall (fun t => calm t = true) ts -> ts = pre ++ t :: post ->
  Forall (fun t => calm t = true) pre /\ calm t = true.
Proof.
  intros H ->. apply Forall_app in H. destruct H as [Hpre Hpost].
  inversion Hpost. split; assumption.
Qed.

(** The arrival of an audio message at a component with an output context. *)
Lemma turn_arrival (N : Numbers) (E : Env) (l : Loop) (now : Q)
    (msg : LiveServerMessage) (ctx : AudioContext) (payload : string) :
  outputContextRef (component l) = Some ctx ->
  base64Audio msg = Some payload -> truthy payload = true ->
  turn N E l (Deliver (Message now msg))
  = ({| component :=
          set_nextStartTimeRef (Qmax (nextStartTimeRef (component l)) now)
            (component l);
        suspended :=
          match decode E payload with
          | Some bytes =>
              suspended l
              ++ [{| arrived := now; heldContext := ctx; heldBytes := bytes;
                     heldMessage := msg |}]
          | None => suspended l
          end |}, []).
Proof.
  intros Hctx Hb64 Ht. cbn [turn]. unfold onmessage_arrive.
  rewrite Hb64, Hctx, Ht. destruct (decode E payload); reflexivity.
Qed.

(** The resumption of an unflagged call whose buffer decodes. *)
Lemma turn_resumption (N : Numbers) (E : Env) (l : Loop) (k : nat)
    (p : Suspended) (buf : AudioBuffer) :
  nth_error (suspended l) k = Some p -> unflagged p = true ->
  decodeAudioData E (heldBytes p) (heldContext p) 24000 1 = Some buf ->
  turn N E l (Resume k)
  = ({| component :=
          set_sourcesRef
            (set_add (fresh (component l)) (sourcesRef (component l)))
            (set_nextStartTimeRef
               (plus N (nextStartTimeRef (component l)) (duration buf))
               (set_fresh (S (fresh (component l))) (component l)));
        suspended := drop_nth k (suspended l) |},
     [CreateBufferSource (heldContext p) (fresh (component l));
      SourceStart (fresh (component l)) buf
        (nextStartTimeRef (component l))]).
Proof.
  intros Hk Hu Hbuf. cbn [turn]. rewrite Hk. unfold onmessage_settle.
  rewrite Hbuf. unfold unflagged in Hu. apply negb_true_iff in Hu.
  unfold handleInterruption. rewrite Hu. reflexivity.
Qed.

(** C1 (as amended).  Turns of the event loop with no interruption flag
    and no new [start()], from a component with no call suspended.  The
    arrival of an audio message raises [nextStartTime] to
    [max(nextStartTime, device time)] and starts nothing; when its decode
    has completed the buffer is started at the value [nextStartTime] has
    then, and [nextStartTime] becomes the rounded sum of that value and the
    buffer's duration.  So every buffer starts at or after the cursor left
    by the buffer started before it; it starts at
    [max(nextStartTime, device time)] when it resumes right after its
    arrival; and it starts at or after the device time of its arrival as
    long as no buffer's rounded end lies before its start. *)
Theorem playback_in_sequence (N : Numbers) (E : Env) (st0 : State)
    (ts : list Turn) :
  Forall (fun t => calm t = true) ts ->
  in_sequence N (nextStartTimeRef st0)
    (starts (snd (turns N E (idle st0) ts)))
  /\ (forall pre now msg post,
        ts = pre ++ Deliver (Message now msg) :: post ->
        let l := fst (turns N E (idle st0) pre) in
        let r := turn N E l (Deliver (Message now msg)) in
        forall ctx payload,
        outputContextRef (component l) = Some ctx ->
        base64Audio msg = Some payload -> truthy payload = true ->
        snd r = []
        /\ nextStartTimeRef (component (fst r))
           = Qmax (nextStartTimeRef (component l)) now
        /\ (forall bytes, decode E payload = Some bytes ->
              suspended (fst r)
              = suspended l
                ++ [{| arrived := now; heldContext := ctx;
                       heldBytes := bytes; heldMessage := msg |}]
              /\ forall buf,
                 decodeAudioData E bytes ctx 24000 1 = Some buf ->
                 snd (turn N E (fst r) (Resume (length (suspended l))))
                 = [CreateBufferSource ctx (fresh (component l));
                    SourceStart (fresh (component l)) buf
                      (Qmax (nextStartTimeRef (component l)) now)]))
  /\ (forall pre k post,
        ts = pre ++ Resume k :: post ->
        let l := fst (turns N E (idle st0) pre) in
        let r := turn N E l (Resume k) in
        forall p, nth_error (suspended l) k = Some p ->
        (forall buf,
           decodeAudioData E (heldBytes p) (heldContext p) 24000 1
           = Some buf ->
           snd r
           = [CreateBufferSource (heldContext p) (fresh (component l));
              SourceStart (fresh (component l)) buf
                (nextStartTimeRef (component l))]
           /\ nextStartTimeRef (component (fst r))
              = plus N (nextStartTimeRef (component l)) (duration buf))
        /\ (forward N (starts (snd (turns N E (idle st0) ts))) ->
            (arrived p <= nextStartTimeRef (component l))%Q)).
Proof.
  intros Hcalm. split; [|split].
  - apply (turns_in_sequence N E ts Hcalm (idle st0)). constructor.
  - intros pre now msg post Hts. cbv zeta.
    intros ctx payload Hctx Hb64 Htruthy.
    rewrite (turn_arrival N E _ now msg ctx payload Hctx Hb64 Htruthy).
    cbn [fst snd component suspended nextStartTimeRef set_nextStartTimeRef].
    split; [reflexivity|]. split; [reflexivity|].
    intros bytes Hdec. rewrite Hdec. split; [reflexivity|].
    intros buf Hbuf.
    destruct (calm_in ts pre post _ Hcalm Hts) as [_ Hmsg].
    rewrite (turn_resumption N E _ _
               {| arrived := now; heldContext := ctx; heldBytes := bytes;
                  heldMessage := msg |} buf);
      [reflexivity
      |cbn [suspended];
       rewrite nth_error_app2, Nat.sub_diag by apply Nat.le_refl; reflexivity
      |exact Hmsg
      |exact Hbuf].
  - intros pre k post Hts. cbv zeta. intros p Hk.
    destruct (calm_in ts pre post _ Hcalm Hts) as [Hpre _].
    assert (Hsus : Forall (fun p => unflagged p = true)
                     (suspended (fst (turns N E (idle st0) pre)))).
    { apply turns_unflagged; [exact Hpre|constructor]. }
    assert (Hin : In p (suspended (fst (turns N E (idle st0) pre))))
      by (eapply nth_error_In; exact Hk).
    split.
    + intros buf Hbuf.
      rewrite (turn_resumption N E _ k p buf Hk
                 (proj1 (Forall_forall _ _) Hsus p Hin) Hbuf).
      split; reflexivity.
    + intros Hfw. subst ts. rewrite turns_app in Hfw. cbn [snd] in Hfw.
      rewrite starts_app in Hfw. apply Forall_app in Hfw.
      destruct Hfw as [Hfw _].
      pose proof (turns_arrived N E pre Hpre (idle st0) (Forall_nil _) Hfw
                    (Forall_nil _)) as Harr.
      rewrite Forall_forall in Harr. apply Harr, Hin.
Qed.

(** ** Interruption *)

Lemma set_add_incl (x s : nat) (l : list nat) : In s l -> In s (set_add x l).
Proof.
  unfold set_add. destruct (existsb (Nat.eqb x) l); [trivial|].
  intros H. apply in_or_app. left. exact H.
Qed.

Lemma set_add_in (x : nat) (l : list nat) : In x (set_add x l).
Proof.
  unfold set_add. destruct (existsb (Nat.eqb x) l) eqn:Ex.
  - apply existsb_exists in Ex. destruct Ex as (y & Hy & Heq).
    apply Nat.eqb_eq in Heq. subst y. exact Hy.
  - apply in_or_app. right. left. reflexivity.
Qed.

(** The first block of [onmessage] only ever adds to the set of sources, and
    a source it starts is in the set afterwards, started at
    [max(nextStartTime, now)]. *)
Lemma handleAudioOutput_sources (E : Env) (st : State) (now : Q)
    (msg : LiveServerMessage) :
  let r := handleAudioOutput E st now msg in
  (forall s, In s (sourcesRef st) -> In s (sourcesRef (fst (fst r))))
  /\ (forall s buf t, In (SourceStart s buf t) (snd (fst r)) ->
        In s (sourcesRef (fst (fst r)))
        /\ t = Qmax (nextStartTimeRef st) now).
Proof.
  unfold handleAudioOutput.
  destruct (base64Audio msg) as [base64|]; [|split; [trivial|intros ? ? ? []]].
  destruct (outputContextRef st) as [ctx|];
    [|split; [trivial|intros ? ? ? []]].
  destruct (truthy base64); [|split; [trivial|intros ? ? ? []]].
  destruct (decoded E base64 ctx) as [audioBuffer|];
    [|split; [trivial|intros ? ? ? []]].
  cbn. split.
  - intros s. apply set_add_incl.
  - intros s buf t [H|[H|[]]]; [discriminate|].
    injection H as <- _ <-. split; [apply set_add_in|reflexivity].
Qed.

Lemma onmessage_start_at (E : Env) (st : State) (now : Q)
    (msg : LiveServerMessage) (s : AudioBufferSourceNode) (buf : AudioBuffer)
    (t : Q) :
  In (SourceStart s buf t) (snd (onmessage E st now msg)) ->
  t = Qmax (nextStartTimeRef st) now.
Proof.
  pose proof (handleAudioOutput_sources E st now msg) as [_ Hstart].
  unfold onmessage, handleInterruption.
  destruct (handleAudioOutput E st now msg) as [[st1 e1] [|]];
    cbn [fst snd] in *.
  - destruct (is_true (interruptedFlag msg)); cbn [fst snd].
    + intros Hin. apply in_app_or in Hin. destruct Hin as [Hin|Hin].
      * apply (Hstart _ _ _ Hin).
      * apply in_map_iff in Hin. destruct Hin as (? & ? & _). discriminate.
    + rewrite app_nil_r. intros Hin. apply (Hstart _ _ _ Hin).
  - intros Hin. apply (Hstart _ _ _ Hin).
Qed.







(** ** Teardown *)

Lemma count_app (p : Effect -> bool) (e1 e2 : list Effect) :
  count p (e1 ++ e2) = (count p e1 + count p e2)%nat.
Proof. unfold count. rewrite filter_app, length_app. reflexivity. Qed.




Lemma stopSession_again (st : State) :
  fst (stopSession (fst (stopSession st))) = fst (stopSession st)
  /\ snd (stopSession st)
     = match sessionRef st with Some s => [SessionClose s] | None => [] end
       ++ snd (stopSession (fst (stopSession st))).
Proof.
  unfold stopSession. cbn. split; reflexivity.
Qed.

Lemma count_track_stops (t : MediaStreamTrack) (l : list MediaStreamTrack) :
  count (stops_track t) (map TrackStop l) = count_occ Nat.eq_dec l t.
Proof.
  unfold count. induction l as [|x l IH]; [reflexivity|].
  cbn [map filter stops_track count_occ].
  destruct (Nat.eq_dec x t) as [->|Hne].
  - rewrite Nat.eqb_refl. cbn [length]. rewrite IH. reflexivity.
  - destruct (Nat.eqb_spec t x) as [->|_]; [contradiction|exact IH].
Qed.

Lemma count_none (p : Effect -> bool) (l : list Effect) :
  (forall e, In e l -> p e = false) -> count p l = 0%nat.
Proof.
  unfold count. induction l as [|x l IH]; [reflexivity|].
  intros H. cbn [filter]. rewrite (H x (or_introl eq_refl)).
  apply IH. intros e He. apply H. right. exact He.
Qed.

(** Release calls of one [stopSession] for a context, when the two context
    references are distinct. *)
Lemma stopSession_closes_once (st : State) (cin cout : AudioContext) :
  inputContextRef st = Some cin -> outputContextRef st = Some cout ->
  cin <> cout ->
  count (closes cin) (snd (stopSession st)) = 1%nat
  /\ count (closes cout) (snd (stopSession st)) = 1%nat.
Proof.
  intros Hin Hout Hne. unfold stopSession. cbn [snd]. rewrite Hin, Hout.
  rewrite !count_app.
  assert (H1 : forall c, count (closes c)
      match sessionRef st with Some s => [SessionClose s] | None => [] end
      = 0%nat) by (intros c; destruct (sessionRef st); reflexivity).
  assert (H2 : forall c, count (closes c)
      match streamRef st with
      | Some stream => map TrackStop (getTracks stream)
      | None => []
      end = 0%nat).
  { intros c. apply count_none. intros e He.
    destruct (streamRef st); [|destruct He].
    apply in_map_iff in He. destruct He as (? & <- & _). reflexivity. }
  assert (H5 : forall c, count (closes c)
      match frameIntervalRef st with
      | Some (S n) => [ClearInterval (S n)]
      | _ => []
      end = 0%nat) by (intros c; destruct (frameIntervalRef st) as [[|?]|];
                       reflexivity).
  rewrite !H1, !H2, !H5. unfold count. cbn [filter closes].
  rewrite !Nat.eqb_refl.
  destruct (Nat.eqb_spec cin cout) as [|_]; [contradiction|].
  destruct (Nat.eqb_spec cout cin) as [Heq|_];
    [symmetry in Heq; contradiction|].
  split; reflexivity.
Qed.

Lemma stopSession_no_session (st : State) (s : Session) :
  sessionRef st = None -> count (closes_session s) (snd (stopSession st)) = 0%nat.
Proof.
  intros Hs. apply count_none. intros e. unfold stopSession. cbn [snd].
  rewrite Hs. cbn [app]. intros He.
  repeat (apply in_app_or in He; destruct He as [He|He]).
  - destruct (streamRef st); [|destruct He].
    apply in_map_iff in He. destruct He as (? & <- & _). reflexivity.
  - destruct (inputContextRef st); [|destruct He].
    destruct He as [<-|[]]. reflexivity.
  - destruct (outputContextRef st); [|destruct He].
    destruct He as [<-|[]]. reflexivity.
  - destruct (frameIntervalRef st) as [[|?]|]; try destruct He as [<-|[]];
      try destruct He; reflexivity.
Qed.

(** C4 (as amended).  [stop()] is a total function of the state (it cannot
    throw), also when called twice in a row or while still connecting.  Each
    call issues a release for every resource whose reference is set at that
    time (tracks of the stored stream, both audio contexts, the video timer)
    and asks the transport to close; it clears the session reference and
    [isConnected] only.  The stream, context and timer references are kept, so
    a second [stop()] leaves the state as it is, closes the transport no
    second time and issues the same track, context and timer releases once
    more: once per call. *)
Theorem stop_twice (st : State) :
  let r1 := stopSession st in
  let r2 := stopSession (fst r1) in
  (sessionRef (fst r1) = None /\ isConnected (fst r1) = false
   /\ streamRef (fst r1) = streamRef st
   /\ inputContextRef (fst r1) = inputContextRef st
   /\ outputContextRef (fst r1) = outputContextRef st
   /\ frameIntervalRef (fst r1) = frameIntervalRef st)
  /\ (forall stream t, streamRef st = Some stream ->
        count (stops_track t) (snd r1)
        = count_occ Nat.eq_dec (getTracks stream) t)
  /\ (forall cin cout,
        inputContextRef st = Some cin -> outputContextRef st = Some cout ->
        cin <> cout ->
        count (closes cin) (snd r1) = 1%nat
        /\ count (closes cout) (snd r1) = 1%nat)
  /\ (forall n, frameIntervalRef st = Some (S n) ->
        count (clears (S n)) (snd r1) = 1%nat)
  /\ (forall s, sessionRef st = Some s ->
        count (closes_session s) (snd r1) = 1%nat)
  /\ fst r2 = fst r1
  /\ snd r1
     = match sessionRef st with Some s => [SessionClose s] | None => [] end
       ++ snd r2
  /\ (forall s, count (closes_session s) (snd r2) = 0%nat)
  /\ (forall c, count (closes c) (snd r2) = count (closes c) (snd r1))
  /\ (forall t, count (stops_track t) (snd r2) = count (stops_track t) (snd r1))
  /\ (forall id, count (clears id) (snd r2) = count (clears id) (snd r1)).
Proof.
  cbv zeta.
  destruct (stopSession_again st) as [Hst Heff].
  split; [repeat split|].
  split.
  { intros stream t Hs. unfold stopSession. cbn [snd]. rewrite Hs.
    rewrite !count_app, count_track_stops.
    destruct (sessionRef st), (inputContextRef st), (outputContextRef st),
      (frameIntervalRef st) as [[|?]|]; cbn; lia. }
  split; [apply stopSession_closes_once|].
  split.
  { intros n Hn. unfold stopSession. cbn [snd]. rewrite Hn.
    rewrite !count_app.
    assert (H2 : count (clears (S n))
      match streamRef st with
      | Some stream => map TrackStop (getTracks stream)
      | None => []
      end = 0%nat).
    { apply count_none. intros e He.
      destruct (streamRef st); [|destruct He].
      apply in_map_iff in He. destruct He as (? & <- & _). reflexivity. }
    rewrite H2.
    destruct (sessionRef st), (inputContextRef st), (outputContextRef st);
      unfold count; cbn [filter clears length]; rewrite Nat.eqb_refl;
      reflexivity. }
  split.
  { intros s Hs. unfold stopSession. cbn [snd]. rewrite Hs.
    rewrite !count_app.
    assert (H2 : count (closes_session s)
      match streamRef st with
      | Some stream => map TrackStop (getTracks stream)
      | None => []
      end = 0%nat).
    { apply count_none. intros e He.
      destruct (streamRef st); [|destruct He].
      apply in_map_iff in He. destruct He as (? & <- & _). reflexivity. }
    rewrite H2.
    destruct (inputContextRef st), (outputContextRef st),
      (frameIntervalRef st) as [[|?]|];
      unfold count; cbn [filter closes_session length app];
      rewrite Nat.eqb_refl; reflexivity. }
  split; [exact Hst|]. split; [exact Heff|].
  assert (Hr2 : forall p,
    (forall s, p (SessionClose s) = false) ->
    count p (snd (stopSession (fst (stopSession st))))
    = count p (snd (stopSession st))).
  { intros p Hp. rewrite Heff at 1. rewrite count_app.
    destruct (sessionRef st) as [s|]; [|reflexivity].
    unfold count at 2. cbn [filter]. rewrite Hp. reflexivity. }
  split.
  { intros s. apply stopSession_no_session. reflexivity. }
  split; [intros c; apply Hr2; reflexivity|].
  split; [intros t; apply Hr2; reflexivity|].
  intros id. apply Hr2. reflexivity.
Qed.

Lemma count_cons (p : Effect -> bool) (e : Effect) (es : list Effect) :
  count p (e :: es) = ((if p e then 1 else 0) + count p es)%nat.
Proof. unfold count. cbn [filter]. destruct (p e); reflexivity. Qed.

Lemma count_track_stops_other (p : Effect -> bool)
    (l : list MediaStreamTrack) :
  (forall t, p (TrackStop t) = false) -> count p (map TrackStop l) = 0%nat.
Proof.
  intros H. apply count_none. intros e He. apply in_map_iff in He.
  destruct He as (t & <- & _). apply H.
Qed.

Ltac count_effects :=
  rewrite ?count_app, ?count_cons;
  rewrite ?count_track_stops_other by reflexivity;
  cbn [creates closes closes_session clears sets_timer stops_track
       stops_source count filter length];
  rewrite ?Nat.eqb_refl;
  repeat match goal with
         | |- context [Nat.eqb ?a ?b] =>
             destruct (Nat.eqb_spec a b); [lia|]
         end.

(** What [start()], a refusal, [start()] again, a grant and [stop()] issue. *)
Lemma retry_effects (E : Env) (st : State) (reason : string)
    (stream : MediaStream) :
  snd (run E st [Start; Media (Denied reason); Start;
                 Media (Granted stream); Stop])
  = [NewAudioContext (fresh st) 16000; NewAudioContext (S (fresh st)) 24000;
     GetUserMedia; ConsoleError [reason];
     NewAudioContext (S (S (fresh st))) 16000;
     NewAudioContext (S (S (S (fresh st)))) 24000; GetUserMedia]
    ++ match videoRef st with
       | Some video => [VideoPlay video stream]
       | None => []
       end
    ++ [LiveConnect (S (S (S (S (fresh st)))));
        SessionClose (S (S (S (S (fresh st)))))]
    ++ map TrackStop (getTracks stream)
    ++ [ContextClose (S (S (fresh st)));
        ContextClose (S (S (S (fresh st))))]
    ++ match frameIntervalRef st with
       | Some (S n) => [ClearInterval (S n)]
       | _ => []
       end.
Proof.
  rewrite !run_cons. cbn [run fst snd step]. rewrite !app_nil_r.
  destruct st as [ic er vd [v|] cv sr icr ocr nx srcs sess [[|n]|] fr rc];
    vm_compute; reflexivity.
Qed.

(** ** Transport error *)

Lemma step_keeps_error (E : Env) (st : State) (ev : Event) :
  keeps_error ev = true ->
  error (fst (step E st ev)) = error st
  \/ error (fst (step E st ev)) = Some "Connection error."%string.
Proof.
  intros Hk.
  destruct ev as [|r|session stream|now msg| |e|session w|session frame|src|];
    cbn [step]; try discriminate Hk.
  - destruct r as [stream|reason]; [left; reflexivity|discriminate Hk].
  - left. unfold onopen, startVideoStreaming.
    cbn [inputContextRef set_isConnected videoRef canvasRef].
    destruct (inputContextRef st), (videoRef st), (canvasRef st); reflexivity.
  - left. unfold onmessage, handleAudioOutput, handleInterruption.
    destruct (base64Audio msg) as [base64|], (outputContextRef st) as [ctx|];
      try destruct (truthy base64); try destruct (decoded E base64 ctx);
      destruct (is_true (interruptedFlag msg)); reflexivity.
  - left. reflexivity.
  - right. reflexivity.
  - left. reflexivity.
  - left. destruct frame; reflexivity.
  - left. reflexivity.
  - left. reflexivity.
Qed.

Lemma run_keeps_error (E : Env) (evs : list Event) :
  Forall (fun ev => keeps_error ev = true) evs ->
  forall st, error st = Some "Connection error."%string ->
  error (fst (run E st evs)) = Some "Connection error."%string.
Proof.
  induction 1 as [|ev rest Hk _ IH]; intros st Hst; [exact Hst|].
  rewrite run_cons. cbn [fst]. apply IH.
  destruct (step_keeps_error E st ev Hk) as [->| ->]; [exact Hst|reflexivity].
Qed.

(** C6 (as amended).  On a transport error, from any state, [isConnected]
    becomes false and the fixed text "Connection error." is recorded for
    display, whatever the error was; the error's own message goes to the
    console only.  The recorded text stays until [start()] is called again or
    a device acquisition fails. *)
Theorem transport_error_recorded (st : State) (e : ErrorEvent) :
  let r := onerror st e in
  error (fst r) = Some "Connection error."%string
  /\ isConnected (fst r) = false
  /\ snd r = [ConsoleError ["Live API Error"%string; message e]]
  /\ (forall e', fst (onerror st e') = fst r)
  /\ (forall E evs,
        Forall (fun ev => keeps_error ev = true) evs ->
        error (fst (run E (fst r) evs)) = Some "Connection error."%string).
Proof.
  cbv zeta. split; [reflexivity|]. split; [reflexivity|].
  split; [reflexivity|]. split; [reflexivity|].
  intros E evs Hk. apply run_keeps_error; [exact Hk|reflexivity].
Qed.

(** ** Starting a session *)

(** [start()] alone writes the two context refs. *)
Lemma handleInterruption_contexts (st : State) (msg : LiveServerMessage) :
  inputContextRef (fst (handleInterruption st msg)) = inputContextRef st
  /\ outputContextRef (fst (handleInterruption st msg)) = outputContextRef st.
Proof.
  unfold handleInterruption.
  destruct (is_true (interruptedFlag msg)); split; reflexivity.
Qed.

Lemma step_keeps_contexts (E : Env) (st : State) (ev : Event) :
  match ev with
  | Start | Message _ _ => True
  | _ =>
      inputContextRef (fst (step E st ev)) = inputContextRef st
      /\ outputContextRef (fst (step E st ev)) = outputContextRef st
  end.
Proof.
  destruct ev as [|r|session stream|now msg| |e|session w|session frame|src|];
    try exact I; cbn [step]; try (split; reflexivity).
  - destruct r; split; reflexivity.
  - destruct st as [ic er vd [v|] [cv|] sr [icr|] ocr nx srcs sess fi fr rc];
      split; reflexivity.
  - destruct frame; split; reflexivity.
Qed.

Lemma arrive_keeps_contexts (E : Env) (st : State) (now : Q)
    (msg : LiveServerMessage) :
  inputContextRef (fst (fst (onmessage_arrive E st now msg)))
  = inputContextRef st
  /\ outputContextRef (fst (fst (onmessage_arrive E st now msg)))
     = outputContextRef st.
Proof.
  unfold onmessage_arrive.
  pose proof (handleInterruption_contexts st msg) as H.
  destruct (handleInterruption st msg) as [st' stops]. cbn [fst] in H.
  destruct (base64Audio msg) as [base64|]; [|exact H].
  destruct (outputContextRef st) as [ctx|] eqn:Hctx; [|exact H].
  destruct (truthy base64); [|exact H].
  destruct (decode E base64); split; first [reflexivity|exact Hctx].
Qed.

Lemma settle_keeps_contexts (N : Numbers) (E : Env) (st : State)
    (p : Suspended) :
  inputContextRef (fst (fst (onmessage_settle N E st p)))
  = inputContextRef st
  /\ outputContextRef (fst (fst (onmessage_settle N E st p)))
     = outputContextRef st.
Proof.
  unfold onmessage_settle.
  destruct (decodeAudioData E (heldBytes p) (heldContext p) 24000 1)
    as [buf|]; [|split; reflexivity].
  match goal with
  | |- context [handleInterruption ?s ?m] =>
      pose proof (handleInterruption_contexts s m) as H;
      destruct (handleInterruption s m) as [st' stops]
  end.
  exact H.
Qed.

Lemma turn_keeps_contexts (N : Numbers) (E : Env) (l : Loop) (t : Turn) :
  no_restart t = true ->
  inputContextRef (component (fst (turn N E l t)))
  = inputContextRef (component l)
  /\ outputContextRef (component (fst (turn N E l t)))
     = outputContextRef (component l).
Proof.
  intros Ht. destruct t as [ev|k].
  - pose proof (step_keeps_contexts E (component l) ev) as Hs.
    pose proof (arrive_keeps_contexts E (component l)) as Ha.
    destruct ev as [|r|session stream|now msg| |e|session w|session frame|src|];
      try discriminate Ht; cbn [turn];
      try (destruct (step E (component l) _) as [st' eff]; exact Hs).
    specialize (Ha now msg).
    destruct (onmessage_arrive E (component l) now msg)
      as [[st' eff] [| |p]]; exact Ha.
  - cbn [turn]. destruct (nth_error (suspended l) k) as [p|];
      [|split; reflexivity].
    pose proof (settle_keeps_contexts N E (component l) p) as H.
    destruct (onmessage_settle N E (component l) p) as [[st e] c]. exact H.
Qed.

Lemma turns_keep_contexts (N : Numbers) (E : Env) (ts : list Turn) :
  Forall (fun t => no_restart t = true) ts ->
  forall l,
  inputContextRef (component (fst (turns N E l ts)))
  = inputContextRef (component l)
  /\ outputContextRef (component (fst (turns N E l ts)))
     = outputContextRef (component l).
Proof.
  induction 1 as [|t rest Ht _ IH]; intros l; [split; reflexivity|].
  rewrite turns_cons. cbn [fst].
  destruct (IH (fst (turn N E l t))) as [Hi Ho].
  destruct (turn_keeps_contexts N E l t Ht) as [Hi' Ho'].
  split; [rewrite Hi; exact Hi'|rewrite Ho; exact Ho'].
Qed.

Lemma stopSession_closes (st : State) (cin cout : AudioContext) :
  inputContextRef st = Some cin -> outputContextRef st = Some cout ->
  In (ContextClose cin) (snd (stopSession st))
  /\ In (ContextClose cout) (snd (stopSession st)).
Proof.
  intros Hi Ho. unfold stopSession. cbn [snd]. rewrite Hi, Ho. split.
  - apply in_or_app. right. apply in_or_app. right. left. reflexivity.
  - do 3 (apply in_or_app; right). left. reflexivity.
Qed.

(** C7 (as amended).  When [getUserMedia] rejects, the text "Failed to access
    media devices or connect." is recorded and the reason logged, no
    connection is opened, the session and stream references and [isConnected]
    stay as they were, and the device is asked for once only.  The two audio
    contexts created before the request are not closed on this path.  Their
    references stay set until [start()] is called again: a [stop()] before
    that, whatever else has been handled in between, closes both; a retried
    [start()] overwrites the references and the [stop()] after it closes
    neither. *)
Theorem acquisition_failure (st : State) (reason : string) :
  let r := startSession st (Denied reason) in
  error (fst r) = Some "Failed to access media devices or connect."%string
  /\ In (ConsoleError [reason]) (snd r)
  /\ count is_connect (snd r) = 0%nat
  /\ sessionRef (fst r) = sessionRef st
  /\ streamRef (fst r) = streamRef st
  /\ isConnected (fst r) = isConnected st
  /\ count is_getUserMedia (snd r) = 1%nat
  /\ count is_close (snd r) = 0%nat
  /\ inputContextRef (fst r) = Some (fresh st)
  /\ outputContextRef (fst r) = Some (S (fresh st))
  /\ In (ContextClose (fresh st)) (snd (stopSession (fst r)))
  /\ In (ContextClose (S (fresh st))) (snd (stopSession (fst r)))
  /\ (forall N E sus ts,
        Forall (fun t => no_restart t = true) ts ->
        let l := fst (turns N E {| component := fst r; suspended := sus |} ts) in
        In (ContextClose (fresh st)) (snd (stopSession (component l)))
        /\ In (ContextClose (S (fresh st))) (snd (stopSession (component l))))
  /\ (forall E stream,
        let retried := run E st [Start; Media (Denied reason); Start;
                                 Media (Granted stream); Stop] in
        count (closes (fresh st)) (snd retried) = 0%nat
        /\ count (closes (S (fresh st))) (snd retried) = 0%nat).
Proof.
  cbv zeta.
  assert (Hi : inputContextRef (fst (startSession st (Denied reason)))
               = Some (fresh st)) by reflexivity.
  assert (Ho : outputContextRef (fst (startSession st (Denied reason)))
               = Some (S (fresh st))) by reflexivity.
  split; [reflexivity|]. split; [do 3 right; left; reflexivity|].
  do 6 (split; [reflexivity|]). split; [exact Hi|]. split; [exact Ho|].
  split; [apply (stopSession_closes _ _ _ Hi Ho)|].
  split; [apply (stopSession_closes _ _ _ Hi Ho)|]. split.
  - intros N E sus ts Hts.
    destruct (turns_keep_contexts N E ts Hts
                {| component := fst (startSession st (Denied reason));
                   suspended := sus |}) as [Hi' Ho'].
    cbn [component] in Hi', Ho'. rewrite Hi in Hi'. rewrite Ho in Ho'.
    apply (stopSession_closes _ _ _ Hi' Ho').
  - intros E stream. rewrite retry_effects.
    destruct (videoRef st), (frameIntervalRef st) as [[|?]|];
      repeat split; count_effects; reflexivity.
Qed.

(** C9.  Every [startSession] sets [nextStartTime] to 0 during setup, before
    the device is asked for and before the transport is connected; it starts
    no source itself, and the value is still 0 when the call ends, however
    device acquisition settles.  The first buffer scheduled after it is
    started at [max(0, device time)], whatever [nextStartTime] was before. *)
Theorem start_resets_clock (st : State) (r : MediaResult) :
  nextStartTimeRef (fst (startSession_setup st)) = 0%Q
  /\ nextStartTimeRef (fst (startSession st r)) = 0%Q
  /\ count is_start (snd (startSession st r)) = 0%nat
  /\ (forall E now msg s buf t,
        In (SourceStart s buf t)
           (snd (onmessage E (fst (startSession st r)) now msg)) ->
        t = Qmax 0 now).
Proof.
  assert (H0 : nextStartTimeRef (fst (startSession st r)) = 0%Q).
  { unfold startSession, startSession_setup, startSession_resume.
    destruct r; reflexivity. }
  split; [reflexivity|]. split; [exact H0|]. split.
  - unfold startSession, startSession_setup, startSession_resume.
    destruct r as [stream|reason]; cbn [fst snd]; [|reflexivity].
    cbn [videoRef set_streamRef set_nextStartTimeRef set_outputContextRef
         set_inputContextRef set_fresh set_error].
    destruct (videoRef st); reflexivity.
  - intros E now msg s buf t Hin. apply onmessage_start_at in Hin.
    rewrite H0 in Hin. exact Hin.
Qed.

(** ** Inbound message parts *)

Lemma onmessage_first_part (E : Env) (st : State) (now : Q)
    (msg msg' : LiveServerMessage) :
  firstPart msg = firstPart msg' ->
  interruptedFlag msg = interruptedFlag msg' ->
  onmessage E st now msg = onmessage E st now msg'.
Proof.
  intros Hp Hf.
  unfold onmessage, handleAudioOutput, handleInterruption, base64Audio.
  rewrite Hp, Hf. reflexivity.
Qed.

(** C10.  [onmessage] reads the first part of the model turn only: two
    messages with the same first part and the same interruption flag are
    handled identically, whatever their later parts carry, and when the first
    part has no inline data nothing is started even if a later part holds
    audio. *)
Theorem only_first_part_examined (E : Env) (st : State) (now : Q) :
  (forall msg msg',
     firstPart msg = firstPart msg' ->
     interruptedFlag msg = interruptedFlag msg' ->
     onmessage E st now msg = onmessage E st now msg')
  /\ (forall p rest rest' flag,
        onmessage E st now (server_message (p :: rest) flag)
        = onmessage E st now (server_message (p :: rest') flag))
  /\ (forall p rest flag,
        inlineData p = None ->
        count is_start
          (snd (onmessage E st now (server_message (p :: rest) flag)))
        = 0%nat).
Proof.
  split; [intros msg msg'; apply onmessage_first_part|].
  split; [intros; apply onmessage_first_part; reflexivity|].
  intros p rest flag Hnone.
  unfold onmessage, handleAudioOutput, handleInterruption, base64Audio,
    firstPart, server_message. cbn [serverContent chain modelTurn parts
    nth_error interruptedFlag interrupted]. rewrite Hnone. cbn [chain fst snd app].
  destruct (is_true flag); [|reflexivity].
  cbn [snd]. apply count_none. intros e He.
  apply in_map_iff in He. destruct He as (? & <- & _). reflexivity.
Qed.

(** ** Capture amplitude *)

Lemma sum_abs_fold (w : list Q) (a : Q) :
  (fold_left (fun a b => a + Qabs b) w a
   == a + fold_right (fun x acc => Qabs x + acc) 0 w)%Q.
Proof.
  revert a. induction w as [|x w IH]; intros a; cbn [fold_left fold_right].
  - ring.
  - rewrite IH. ring.
Qed.

Lemma volume_mean_abs (w : list Q) :
  (fold_left (fun a b => a + Qabs b) w 0 / inject_Z (Z.of_nat (length w))
   == mean_abs w)%Q.
Proof.
  unfold mean_abs. rewrite sum_abs_fold. rewrite Qplus_0_l. reflexivity.
Qed.

Lemma redraw_length (E : Env) (volume : Q) (prev : list Q) (k : nat) :
  length (redraw E k volume prev) = length prev.
Proof.
  revert k. induction prev as [|x prev IH]; intros k; [reflexivity|].
  cbn [redraw length]. rewrite IH. reflexivity.
Qed.

Lemma redraw_nth (E : Env) (volume : Q) (prev : list Q) (k i : nat) :
  (i < length prev)%nat ->
  nth i (redraw E k volume prev) 0%Q
  = (random E (k + i) * 20 + volume * 500)%Q.
Proof.
  revert k i. induction prev as [|x prev IH]; intros k i Hi;
    [inversion Hi|].
  destruct i as [|i]; cbn [redraw nth].
  - rewrite Nat.add_0_r. reflexivity.
  - rewrite IH by (cbn [length] in Hi; lia).
    replace (S k + i)%nat with (k + S i)%nat by lia. reflexivity.
Qed.

Lemma run_audio_windows (E : Env) (session : Session) (ws : list (list Q)) :
  forall st,
  count is_visualizer_update (snd (run E st (map (AudioProcess session) ws)))
  = length ws
  /\ count is_send (snd (run E st (map (AudioProcess session) ws)))
     = length ws.
Proof.
  induction ws as [|w ws IH]; intros st; [split; reflexivity|].
  cbn [map run step].
  destruct (onaudioprocess E st session w) as [st1 e1] eqn:E1.
  specialize (IH st1). destruct (run E st1 _) as [st2 e2].
  cbn [snd] in *. unfold onaudioprocess in E1. injection E1 as _ <-.
  rewrite !count_app. destruct IH as [-> ->]. split; reflexivity.
Qed.

(** C8.  One captured window (non-empty, as the 4096-sample windows are)
    updates the 10-bar vector exactly once: bar [i] becomes the [i]-th fresh
    [Math.random] draw times 20 plus 500 times the window's mean absolute
    amplitude, each bar with a draw of its own; a run of windows gives as many
    updates (and as many audio chunks sent) as there are windows. *)
Theorem visualizer_update (E : Env) (st : State) (session : Session)
    (w : list Q) :
  w <> [] ->
  length (visualizerData st) = 10%nat ->
  let r := onaudioprocess E st session w in
  count is_visualizer_update (snd r) = 1%nat
  /\ In (SetVisualizerData (visualizerData (fst r))) (snd r)
  /\ length (visualizerData (fst r)) = 10%nat
  /\ (forall i, (i < 10)%nat ->
        (nth i (visualizerData (fst r)) 0
         == random E (randomCalls st + i) * 20 + mean_abs w * 500)%Q)
  /\ randomCalls (fst r) = (randomCalls st + 10)%nat
  /\ (forall ws,
        count is_visualizer_update
          (snd (run E st (map (AudioProcess session) ws)))
        = length ws).
Proof.
  intros _ Hlen. cbv zeta. unfold onaudioprocess. cbn [fst snd].
  cbn [visualizerData randomCalls set_visualizerData set_randomCalls].
  split; [reflexivity|]. split; [right; left; reflexivity|].
  split; [rewrite redraw_length; exact Hlen|].
  split.
  - intros i Hi. rewrite redraw_nth by lia.
    rewrite volume_mean_abs. reflexivity.
  - split; [rewrite Hlen; reflexivity|].
    intros ws. apply run_audio_windows.
Qed.

(** * Further properties of LiveSession *)

Lemma run_app (E : Env) (evs1 evs2 : list Event) :
  forall st,
  run E st (evs1 ++ evs2)
  = (fst (run E (fst (run E st evs1)) evs2),
     snd (run E st evs1) ++ snd (run E (fst (run E st evs1)) evs2)).
Proof.
  induction evs1 as [|ev evs1 IH]; intros st.
  - cbn [app run fst snd]. destruct (run E st evs2). reflexivity.
  - cbn [app]. rewrite !run_cons. rewrite IH. cbn [fst snd].
    rewrite app_assoc. reflexivity.
Qed.

Lemma set_add_elim (x s : nat) (l : list nat) :
  In s (set_add x l) -> In s l \/ s = x.
Proof.
  unfold set_add. destruct (existsb (Nat.eqb x) l); [left; assumption|].
  intros H. apply in_app_or in H. destruct H as [H|[H|[]]]; auto.
Qed.

Lemma set_delete_iff (x y : nat) (l : list nat) :
  In y (set_delete x l) <-> In y l /\ y <> x.
Proof.
  unfold set_delete. rewrite filter_In. split.
  - intros [Hin Hne]. split; [exact Hin|].
    intros ->. rewrite Nat.eqb_refl in Hne. discriminate.
  - intros [Hin Hne]. split; [exact Hin|].
    destruct (Nat.eqb_spec x y) as [->|_]; [contradiction|reflexivity].
Qed.

(** ** The set of active sources *)

Lemma step_sources (E : Env) (st : State) (ev : Event)
    (s : AudioBufferSourceNode) :
  In s (sourcesRef (fst (step E st ev))) ->
  In s (sourcesRef st)
  \/ exists buf t, In (SourceStart s buf t) (snd (step E st ev)).
Proof.
  destruct ev as [|r|session stream|now msg| |e|session w|session frame|src|];
    cbn [step].
  - left. assumption.
  - destruct r; left; assumption.
  - unfold onopen, startVideoStreaming.
    cbn [inputContextRef set_isConnected videoRef canvasRef].
    destruct (inputContextRef st), (videoRef st), (canvasRef st);
      left; assumption.
  - unfold onmessage, handleAudioOutput, handleInterruption.
    destruct (base64Audio msg) as [base64|], (outputContextRef st) as [ctx|];
      try destruct (truthy base64); try destruct (decoded E base64 ctx);
      destruct (is_true (interruptedFlag msg)); cbn;
      try (intros []); try (left; assumption).
    intros H. apply set_add_elim in H. destruct H as [H| ->];
      [left; exact H|].
    right. eexists _, _. right. left. reflexivity.
  - left. assumption.
  - left. assumption.
  - left. assumption.
  - destruct frame; left; assumption.
  - cbn. intros H. apply set_delete_iff in H. left. apply H.
  - left. assumption.
Qed.

(** X1.  Every source in the active set has been started: from a state with
    an empty set, whatever events follow, each member of [sourcesRef] is the
    source of a [start] call issued since. *)
Theorem active_sources_started (E : Env) (evs : list Event) :
  forall st s,
  sourcesRef st = [] ->
  In s (sourcesRef (fst (run E st evs))) ->
  exists buf t, In (SourceStart s buf t) (snd (run E st evs)).
Proof.
  assert (H : forall st s,
    In s (sourcesRef (fst (run E st evs))) ->
    In s (sourcesRef st)
    \/ exists buf t, In (SourceStart s buf t) (snd (run E st evs))).
  { induction evs as [|ev evs IH]; intros st s Hin; [left; exact Hin|].
    rewrite run_cons in *. cbn [fst snd] in *.
    destruct (IH _ _ Hin) as [Hold|(buf & t & Hst)].
    - destruct (step_sources E st ev s Hold) as [H|(buf & t & Hst)];
        [left; exact H|].
      right. exists buf, t. apply in_or_app. left. exact Hst.
    - right. exists buf, t. apply in_or_app. right. exact Hst. }
  intros st s Hempty Hin. destruct (H st s Hin) as [Hold|Hst]; [|exact Hst].
  rewrite Hempty in Hold. destruct Hold.
Qed.

(** X2.  Once a source has fired ['ended'] it is out of the active set while
    the others stay, so an interruption that follows does not call [stop] on
    it but still stops every other active source. *)
Theorem ended_source_not_stopped (E : Env) (st : State) (evs : list Event)
    (s : AudioBufferSourceNode) (now : Q) (msg : LiveServerMessage) :
  let before := fst (run E st evs) in
  let st' := fst (run E st (evs ++ [Ended s])) in
  base64Audio msg = None ->
  is_true (interruptedFlag msg) = true ->
  ~ In s (sourcesRef st')
  /\ (forall x, In x (sourcesRef st') <-> In x (sourcesRef before) /\ x <> s)
  /\ snd (onmessage E st' now msg)
     = map SourceStop (set_delete s (sourcesRef before))
  /\ count (stops_source s) (snd (onmessage E st' now msg)) = 0%nat.
Proof.
  cbv zeta. intros Hnone Hflag. rewrite run_app. cbn [fst snd run step onended].
  split; [intros H; apply set_delete_iff in H; destruct H as [_ H]; auto|].
  split; [intros x; apply set_delete_iff|].
  assert (Heff : snd (onmessage E
      (set_sourcesRef (set_delete s (sourcesRef (fst (run E st evs))))
         (fst (run E st evs))) now msg)
    = map SourceStop (set_delete s (sourcesRef (fst (run E st evs))))).
  { unfold onmessage, handleAudioOutput, handleInterruption.
    rewrite Hnone, Hflag. reflexivity. }
  split; [exact Heff|]. rewrite Heff.
  apply count_none. intros e He. apply in_map_iff in He.
  destruct He as (x & <- & Hx). apply set_delete_iff in Hx.
  cbn [stops_source]. destruct (Nat.eqb_spec s x) as [->|_];
    [destruct Hx as [_ Hx]; contradiction|reflexivity].
Qed.

(** ** The visualizer *)

Lemma step_visualizer_length (E : Env) (st : State) (ev : Event) :
  length (visualizerData (fst (step E st ev))) = length (visualizerData st).
Proof.
  destruct ev as [|r|session stream|now msg| |e|session w|session frame|src|];
    cbn [step]; try reflexivity.
  - destruct r; reflexivity.
  - unfold onopen, startVideoStreaming.
    cbn [inputContextRef set_isConnected videoRef canvasRef].
    destruct (inputContextRef st), (videoRef st), (canvasRef st); reflexivity.
  - unfold onmessage, handleAudioOutput, handleInterruption.
    destruct (base64Audio msg) as [base64|], (outputContextRef st) as [ctx|];
      try destruct (truthy base64); try destruct (decoded E base64 ctx);
      destruct (is_true (interruptedFlag msg)); reflexivity.
  - cbn. apply redraw_length.
  - destruct frame; reflexivity.
Qed.

(** X3.  The visualizer vector keeps its number of bars through every event:
    ten bars at mount are ten bars after any run. *)
Theorem visualizer_keeps_its_bars (E : Env) (evs : list Event) :
  forall st,
  length (visualizerData (fst (run E st evs))) = length (visualizerData st)
  /\ (visualizerData st = visualizerData mounted ->
      length (visualizerData (fst (run E st evs))) = 10%nat).
Proof.
  assert (H : forall st,
    length (visualizerData (fst (run E st evs)))
    = length (visualizerData st)).
  { induction evs as [|ev evs IH]; intros st; [reflexivity|].
    rewrite run_cons. cbn [fst]. rewrite IH. apply step_visualizer_length. }
  intros st. split; [apply H|]. intros Hm. rewrite H, Hm. reflexivity.
Qed.

(** ** Connection state *)

(** X5.  [isConnected] after any run is decided by the last of the events
    open, close, error and [stop()]: true after an open, false after the
    other three, and unchanged by everything else ([start()], device
    settlement, messages, capture windows, frames, ends of playback). *)
Theorem connection_follows_lifecycle (E : Env) (evs : list Event) :
  forall st,
  isConnected (fst (run E st evs)) = connection_after (isConnected st) evs.
Proof.
  unfold connection_after.
  induction evs as [|ev evs IH]; intros st; [reflexivity|].
  rewrite run_cons. cbn [fst fold_left]. rewrite IH. f_equal.
  destruct ev as [|r|session stream|now msg| |e|session w|session frame|src|];
    cbn [step]; try reflexivity.
  - destruct r; reflexivity.
  - unfold onopen, startVideoStreaming.
    cbn [inputContextRef set_isConnected videoRef canvasRef].
    destruct (inputContextRef st), (videoRef st), (canvasRef st); reflexivity.
  - unfold onmessage, handleAudioOutput, handleInterruption.
    destruct (base64Audio msg) as [base64|], (outputContextRef st) as [ctx|];
      try destruct (truthy base64); try destruct (decoded E base64 ctx);
      destruct (is_true (interruptedFlag msg)); reflexivity.
  - destruct frame; reflexivity.
Qed.

(** ** Outbound media *)

Lemma sent_app (e1 e2 : list Effect) : sent (e1 ++ e2) = sent e1 ++ sent e2.
Proof.
  induction e1 as [|e e1 IH]; [reflexivity|].
  destruct e; cbn [app sent]; rewrite ?IH; reflexivity.
Qed.

Lemma sent_none (es : list Effect) :
  (forall e, In e es -> is_send e = false) -> sent es = [].
Proof.
  induction es as [|e es IH]; [reflexivity|]. intros H.
  assert (He : is_send e = false) by (apply H; left; reflexivity).
  destruct e; try discriminate He; cbn [sent]; apply IH;
    intros e' He'; apply H; right; exact He'.
Qed.

Lemma step_sent (E : Env) (st : State) (ev : Event) :
  sent (snd (step E st ev)) = outbound E ev.
Proof.
  destruct ev as [|r|session stream|now msg| |e|session w|session frame|src|];
    cbn [step outbound]; try reflexivity.
  - destruct r as [stream|reason]; [|reflexivity].
    cbn [startSession_resume snd]. cbn [videoRef set_streamRef].
    destruct (videoRef st); reflexivity.
  - unfold onopen, startVideoStreaming.
    cbn [inputContextRef set_isConnected videoRef canvasRef].
    destruct (inputContextRef st), (videoRef st), (canvasRef st); reflexivity.
  - unfold onmessage, handleAudioOutput, handleInterruption.
    destruct (base64Audio msg) as [base64|], (outputContextRef st) as [ctx|];
      try destruct (truthy base64); try destruct (decoded E base64 ctx);
      destruct (is_true (interruptedFlag msg)); cbn [fst snd app sent];
      try reflexivity;
      apply sent_none; intros e He; apply in_map_iff in He;
      destruct He as (? & <- & _); reflexivity.
  - destruct frame; reflexivity.
  - unfold stopSession. cbn [snd]. apply sent_none. intros e He.
    repeat (apply in_app_or in He; destruct He as [He|He]).
    + destruct (sessionRef st); [destruct He as [<-|[]]; reflexivity|].
      destruct He.
    + destruct (streamRef st); [|destruct He].
      apply in_map_iff in He. destruct He as (? & <- & _). reflexivity.
    + destruct (inputContextRef st); [destruct He as [<-|[]]; reflexivity|].
      destruct He.
    + destruct (outputContextRef st); [destruct He as [<-|[]]; reflexivity|].
      destruct He.
    + destruct (frameIntervalRef st) as [[|?]|]; try destruct He as [<-|[]];
        try destruct He; reflexivity.
Qed.

(** X6.  What goes out over the transport is decided by the capture events
    alone: one audio chunk per captured window and one JPEG per readable
    frame, in the order of the events and to the session whose handler fired,
    whatever the component's state; no other handler sends media. *)
Theorem outbound_media_in_order (E : Env) (evs : list Event) :
  forall st,
  sent (snd (run E st evs)) = flat_map (outbound E) evs
  /\ (forall session ws,
        sent (snd (run E st (map (AudioProcess session) ws)))
        = map (fun w => (session, createBlob E w)) ws).
Proof.
  assert (H : forall evs st,
            sent (snd (run E st evs)) = flat_map (outbound E) evs).
  { clear evs. induction evs as [|ev evs IH]; intros st; [reflexivity|].
    rewrite run_cons. cbn [snd flat_map]. rewrite sent_app, step_sent, IH.
    reflexivity. }
  intros st. split; [apply H|]. intros session ws. rewrite H.
  induction ws as [|w ws IHw]; [reflexivity|].
  cbn [map flat_map outbound app]. rewrite IHw. reflexivity.
Qed.

(** ** A whole session *)

(** The calls of one whole session, from [start()] to [stop()]. *)
Lemma session_effects (E : Env) (st : State) (stream : MediaStream) :
  snd (run E st [Start; Media (Granted stream);
                 Open (S (S (fresh st))) stream; Stop])
  = [NewAudioContext (fresh st) 16000; NewAudioContext (S (fresh st)) 24000;
     GetUserMedia]
    ++ match videoRef st with
       | Some video => [VideoPlay video stream]
       | None => []
       end
    ++ [LiveConnect (S (S (fresh st)));
        CreateScriptProcessor (fresh st) stream 4096]
    ++ match videoRef st, canvasRef st with
       | Some _, Some _ => [SetInterval (S (S (S (S (fresh st))))) 1000]
       | _, _ => []
       end
    ++ [SessionClose (S (S (fresh st)))]
    ++ map TrackStop (getTracks stream)
    ++ [ContextClose (fresh st); ContextClose (S (fresh st))]
    ++ match videoRef st, canvasRef st with
       | Some _, Some _ => [ClearInterval (S (S (S (S (fresh st)))))]
       | _, _ =>
           match frameIntervalRef st with
           | Some (S n) => [ClearInterval (S n)]
           | _ => []
           end
       end.
Proof.
  rewrite !run_cons. cbn [run fst snd step]. rewrite !app_nil_r.
  unfold startSession_setup, startSession_resume, onopen, startVideoStreaming,
    stopSession. cbn.
  destruct (videoRef st), (canvasRef st); cbn; reflexivity.
Qed.

Lemma session_final_state (E : Env) (st : State) (stream : MediaStream) :
  isConnected (fst (run E st [Start; Media (Granted stream);
                              Open (S (S (fresh st))) stream; Stop])) = false
  /\ sessionRef (fst (run E st [Start; Media (Granted stream);
                                Open (S (S (fresh st))) stream; Stop])) = None.
Proof.
  destruct st as [ic er vd [v|] [c|] sr icr ocr nx srcs sess fi fr rc];
    vm_compute; split; reflexivity.
Qed.

(** X7.  One session from [start()] to [stop()]: the two contexts and the
    transport session created by [start()], every track of the granted
    stream and, when the video and canvas elements exist, the timer set at
    open are each released exactly once by the one [stop()], whatever state
    the component was in before. *)
Theorem session_released_once (E : Env) (st : State) (stream : MediaStream) :
  let input := fresh st in
  let output := S (fresh st) in
  let session := S (S (fresh st)) in
  let timer := S (S (S (S (fresh st)))) in
  let r := run E st [Start; Media (Granted stream); Open session stream; Stop] in
  count (creates input) (snd r) = 1%nat
  /\ count (creates output) (snd r) = 1%nat
  /\ count (closes input) (snd r) = 1%nat
  /\ count (closes output) (snd r) = 1%nat
  /\ count (closes_session session) (snd r) = 1%nat
  /\ (forall t, count (stops_track t) (snd r)
                = count_occ Nat.eq_dec (getTracks stream) t)
  /\ (videoRef st <> None -> canvasRef st <> None ->
      count (sets_timer timer) (snd r) = 1%nat
      /\ count (clears timer) (snd r) = 1%nat)
  /\ isConnected (fst r) = false
  /\ sessionRef (fst r) = None.
Proof.
  cbv zeta.
  split; [|split; [|split; [|split; [|split; [|split; [|split]]]]]];
    rewrite ?session_effects.
  - destruct (videoRef st), (canvasRef st), (frameIntervalRef st) as [[|?]|];
      count_effects; reflexivity.
  - destruct (videoRef st), (canvasRef st), (frameIntervalRef st) as [[|?]|];
      count_effects; reflexivity.
  - destruct (videoRef st), (canvasRef st), (frameIntervalRef st) as [[|?]|];
      count_effects; reflexivity.
  - destruct (videoRef st), (canvasRef st), (frameIntervalRef st) as [[|?]|];
      count_effects; reflexivity.
  - destruct (videoRef st), (canvasRef st), (frameIntervalRef st) as [[|?]|];
      count_effects; reflexivity.
  - intros t.
    destruct (videoRef st), (canvasRef st), (frameIntervalRef st) as [[|?]|];
      rewrite ?count_app, ?count_cons, count_track_stops;
      cbn [stops_track count filter length]; lia.
  - intros Hv Hc.
    destruct (videoRef st); [|contradiction].
    destruct (canvasRef st); [|contradiction].
    split; count_effects; reflexivity.
  - apply session_final_state.
Qed.

Lemma reopen_effects (E : Env) (st : State) (stream : MediaStream)
    (s1 s2 : Session) (video canvas : HTMLElement) (input : AudioContext) :
  videoRef st = Some video -> canvasRef st = Some canvas ->
  inputContextRef st = Some input ->
  snd (run E st [Open s1 stream; Open s2 stream; Stop])
  = [CreateScriptProcessor input stream 4096;
     SetInterval (S (fresh st)) 1000;
     CreateScriptProcessor input stream 4096;
     SetInterval (S (S (S (fresh st)))) 1000]
    ++ match sessionRef st with Some s => [SessionClose s] | None => [] end
    ++ match streamRef st with
       | Some stream' => map TrackStop (getTracks stream')
       | None => []
       end
    ++ [ContextClose input]
    ++ match outputContextRef st with
       | Some c => [ContextClose c]
       | None => []
       end
    ++ [ClearInterval (S (S (S (fresh st))))].
Proof.
  rewrite !run_cons. cbn [run fst snd step]. rewrite !app_nil_r.
  destruct st as [ic er vd vr cv [sr|] icr [ocr|] nx srcs [sess|] fi fr rc];
    cbn [videoRef canvasRef inputContextRef fresh sessionRef streamRef
         outputContextRef]; intros -> -> ->; vm_compute; reflexivity.
Qed.

(** X8.  References are overwritten, not released.  When [start()] is
    retried after a failed device acquisition, the two contexts of the failed
    attempt are never closed, not even by the [stop()] that follows: it closes
    the contexts of the second attempt only.  Likewise a second open replaces
    the video timer, and [stop()] clears the second timer only. *)
Theorem overwritten_handles_not_released (E : Env) (st : State)
    (reason : string) (stream : MediaStream) :
  let r := run E st [Start; Media (Denied reason); Start;
                     Media (Granted stream); Stop] in
  (count (creates (fresh st)) (snd r) = 1%nat
   /\ count (closes (fresh st)) (snd r) = 0%nat
   /\ count (creates (S (fresh st))) (snd r) = 1%nat
   /\ count (closes (S (fresh st))) (snd r) = 0%nat
   /\ count (closes (S (S (fresh st)))) (snd r) = 1%nat
   /\ count (closes (S (S (S (fresh st))))) (snd r) = 1%nat)
  /\ (videoRef st <> None -> canvasRef st <> None ->
      inputContextRef st <> None ->
      forall s1 s2,
      let r' := run E st [Open s1 stream; Open s2 stream; Stop] in
      count (sets_timer (S (fresh st))) (snd r') = 1%nat
      /\ count (clears (S (fresh st))) (snd r') = 0%nat
      /\ count (sets_timer (S (S (S (fresh st))))) (snd r') = 1%nat
      /\ count (clears (S (S (S (fresh st))))) (snd r') = 1%nat).
Proof.
  cbv zeta. split.
  - rewrite retry_effects.
    destruct (videoRef st), (frameIntervalRef st) as [[|?]|];
      repeat split; count_effects; reflexivity.
  - intros Hv Hc Hi s1 s2.
    destruct (videoRef st) as [video|] eqn:Ev; [|contradiction].
    destruct (canvasRef st) as [canvas|] eqn:Ec; [|contradiction].
    destruct (inputContextRef st) as [input|] eqn:Ei; [|contradiction].
    rewrite (reopen_effects E st stream s1 s2 video canvas input Ev Ec Ei).
    destruct (sessionRef st), (streamRef st), (outputContextRef st);
      repeat split; count_effects; reflexivity.
Qed.

(** * Properties of services/geminiService *)

Section GeminiServiceFacts.

Import GeminiService.

(** X9.  The model of a chat request is decided by the tier first: the FAST
    tier always gets the lite model, thinking or not; the pro model is used
    for the PRO tier and for the STANDARD tier with thinking; the flash model
    for the STANDARD tier without thinking. *)
Theorem chat_model_by_tier (prompt : string)
    (history : list (string * list RequestPart)) (files : list FileData)
    (config : ChatConfig) (geoLocation : option GeoLocation) :
  let r := generateChatResponse prompt history files config geoLocation in
  (model r = "gemini-flash-lite-latest"%string <-> modelTier config = FAST)
  /\ (model r = "gemini-3-pro-preview"%string
      <-> modelTier config = PRO
          \/ (modelTier config = STANDARD /\ useThinking config = true))
  /\ (model r = "gemini-2.5-flash"%string
      <-> modelTier config = STANDARD /\ useThinking config = false).
Proof.
  cbv zeta. unfold generateChatResponse. cbn [model].
  destruct (modelTier config), (useThinking config); cbn;
    repeat split; intros; try discriminate; try reflexivity;
    repeat match goal with
           | H : _ \/ _ |- _ => destruct H
           | H : _ /\ _ |- _ => destruct H
           end;
    try discriminate; auto.
Qed.

(** X10.  A thinking budget (32768) is attached exactly when thinking is
    asked for on a tier other than FAST, and then the request goes to the pro
    model; on the FAST tier the thinking switch has no effect on the
    request. *)
Theorem thinking_budget (prompt : string)
    (history : list (string * list RequestPart)) (files : list FileData)
    (config : ChatConfig) (geoLocation : option GeoLocation) :
  let r := generateChatResponse prompt history files config geoLocation in
  (thinkingConfig r = Some 32768
   <-> useThinking config = true /\ modelTier config <> FAST)
  /\ (thinkingConfig r = None
      <-> useThinking config = false \/ modelTier config = FAST)
  /\ (thinkingConfig r <> None -> model r = "gemini-3-pro-preview"%string)
  /\ (modelTier config = FAST ->
      forall b,
      generateChatResponse prompt history files
        {| useSearch := useSearch config; useMaps := useMaps config;
           useThinking := b; modelTier := FAST |} geoLocation
      = r).
Proof.
  cbv zeta. unfold generateChatResponse. cbn [model thinkingConfig].
  destruct config as [search maps thinking tier].
  cbn [useSearch useMaps useThinking modelTier].
  destruct tier, thinking; cbn;
    repeat split; intros; try discriminate; try reflexivity;
    repeat match goal with
           | H : _ \/ _ |- _ => destruct H
           | H : _ /\ _ |- _ => destruct H
           | H : ?x <> ?x |- _ => destruct (H eq_refl)
           end;
    try discriminate; try congruence; auto;
    try (right; reflexivity); try (left; reflexivity);
    try (split; [reflexivity|discriminate]);
    match goal with b : bool |- _ => destruct b; reflexivity end.
Qed.

Lemma push_files (files : list FileData) (acc : list RequestPart) :
  fold_left (fun parts f => parts ++ [InlinePart f]) files acc
  = acc ++ map InlinePart files.
Proof.
  revert acc. induction files as [|f files IH]; intros acc; cbn [fold_left map].
  - rewrite app_nil_r. reflexivity.
  - rewrite IH, <- app_assoc. reflexivity.
Qed.

(** X11.  The contents of a chat request are the attached files, one inline
    part each in their order, followed by the prompt as the last part; the
    text part is there even when the prompt is empty. *)
Theorem chat_contents (prompt : string)
    (history : list (string * list RequestPart)) (files : list FileData)
    (config : ChatConfig) (geoLocation : option GeoLocation) :
  let r := generateChatResponse prompt history files config geoLocation in
  contents r = map InlinePart files ++ [TextPart prompt]
  /\ length (contents r) = S (length files)
  /\ last (contents r) (TextPart prompt) = TextPart prompt
  /\ (forall i f, nth_error files i = Some f ->
        nth_error (contents r) i = Some (InlinePart f)).
Proof.
  cbv zeta. unfold generateChatResponse. cbn [contents].
  rewrite push_files. cbn [app].
  split; [reflexivity|]. split; [|split].
  - rewrite length_app, length_map. cbn [length]. lia.
  - apply last_last.
  - intros i f Hf. rewrite nth_error_app1.
    + rewrite nth_error_map, Hf. reflexivity.
    + rewrite length_map. apply nth_error_Some. congruence.
Qed.

(** X12.  The tools of a chat request: none at all ([undefined], not an empty
    list) when neither search nor maps is on, otherwise search before maps.
    A location is sent only together with the maps tool, and only when both
    maps is on and a location is known. *)
Theorem chat_tools (prompt : string)
    (history : list (string * list RequestPart)) (files : list FileData)
    (config : ChatConfig) (geoLocation : option GeoLocation) :
  let r := generateChatResponse prompt history files config geoLocation in
  (tools r = None <-> useSearch config = false /\ useMaps config = false)
  /\ tools r <> Some []
  /\ (forall ts, tools r = Some ts ->
        (In googleSearch ts <-> useSearch config = true)
        /\ (In googleMaps ts <-> useMaps config = true))
  /\ (useSearch config = true -> useMaps config = true ->
      tools r = Some [googleSearch; googleMaps])
  /\ (forall g, toolConfig r = Some g
                <-> useMaps config = true /\ geoLocation = Some g)
  /\ (toolConfig r <> None ->
      exists ts, tools r = Some ts /\ In googleMaps ts).
Proof.
  cbv zeta. unfold generateChatResponse. cbn [tools toolConfig].
  destruct (useSearch config), (useMaps config), geoLocation as [g0|]; cbn;
    repeat split; intros; try discriminate; try reflexivity;
    repeat match goal with
           | H : _ /\ _ |- _ => destruct H
           | H : Some _ = Some _ |- _ => injection H as <-
           | H : In _ (_ :: _) |- _ => destruct H as [H|H]
           | H : In _ [] |- _ => destruct H
           | H : ?x <> ?x |- _ => destruct (H eq_refl)
           end;
    try discriminate; try congruence; cbn; auto;
    try (eexists; split; [reflexivity|cbn; auto]).
Qed.

(** ** Video generation *)

Lemma poll_eq (operation : VideoOperation) (responses : list VideoOperation) :
  poll operation responses
  = if done operation then (Some operation, [])
    else match responses with
         | [] => (None, one_poll)
         | next :: rest =>
             (fst (poll next rest), one_poll ++ snd (poll next rest))
         end.
Proof.
  destruct responses as [|next rest]; cbn [poll]; [reflexivity|].
  destruct (poll next rest). reflexivity.
Qed.

Lemma poll_pending (pending : list VideoOperation) :
  Forall (fun o => done o = false) pending ->
  forall d later first responses,
  first :: responses = pending ++ d :: later ->
  done d = true ->
  poll first responses = (Some d, flat_map (fun _ => one_poll) pending).
Proof.
  induction 1 as [|o pending Ho _ IH]; intros d later first responses Heq Hd.
  - cbn [app] in Heq. injection Heq as -> ->.
    rewrite poll_eq, Hd. reflexivity.
  - cbn [app] in Heq. injection Heq as -> ->.
    rewrite poll_eq, Ho.
    destruct pending as [|o' pending'].
    + cbn [app]. rewrite poll_eq, Hd. reflexivity.
    + cbn [app]. rewrite (IH d later o' (pending' ++ d :: later) eq_refl Hd).
      reflexivity.
Qed.

Lemma poll_unfinished (responses : list VideoOperation) :
  forall first,
  Forall (fun o => done o = false) (first :: responses) ->
  poll first responses
  = (None, flat_map (fun _ => one_poll) (first :: responses)).
Proof.
  induction responses as [|next rest IH]; intros first H;
    inversion H as [|? ? Hf Hrest]; subst; rewrite poll_eq, Hf.
  - reflexivity.
  - rewrite (IH next Hrest). reflexivity.
Qed.

Lemma count_polls (pending : list VideoOperation) :
  length (filter is_poll (flat_map (fun _ => one_poll) pending))
  = length pending
  /\ filter is_fetch (flat_map (fun _ => one_poll) pending) = []
  /\ filter is_generate (flat_map (fun _ => one_poll) pending) = []
  /\ filter is_dialog (flat_map (fun _ => one_poll) pending) = [].
Proof.
  induction pending as [|o pending (IH1 & IH2 & IH3 & IH4)];
    [repeat split|].
  cbn [flat_map one_poll app filter is_poll is_fetch is_generate is_dialog
       length].
  rewrite IH1. repeat split; assumption.
Qed.

(** X13.  Polling stops at the first operation that reports [done]: with [k]
    unfinished operations before it (the one returned by [generateVideos]
    counted), the operation is fetched [k] times, each time after a 5 s
    sleep, and later responses are never asked for; an operation that is done
    at once is not polled at all.  As long as no operation is done the call
    keeps polling. *)
Theorem polling_stops_at_first_done (first : VideoOperation)
    (responses pending later : list VideoOperation) (d : VideoOperation) :
  (first :: responses = pending ++ d :: later ->
   Forall (fun o => done o = false) pending -> done d = true ->
   poll first responses = (Some d, flat_map (fun _ => one_poll) pending)
   /\ length (filter is_poll (snd (poll first responses))) = length pending)
  /\ (done first = true -> poll first responses = (Some first, []))
  /\ (Forall (fun o => done o = false) (first :: responses) ->
      fst (poll first responses) = None
      /\ length (filter is_poll (snd (poll first responses)))
         = S (length responses)).
Proof.
  split; [|split].
  - intros Heq Hp Hd. rewrite (poll_pending pending Hp d later _ _ Heq Hd).
    split; [reflexivity|]. cbn [snd]. apply count_polls.
  - intros Hd. rewrite poll_eq, Hd. reflexivity.
  - intros H. rewrite (poll_unfinished responses first H). cbn [fst snd].
    split; [reflexivity|].
    destruct (count_polls (first :: responses)) as [Hc _]. exact Hc.
Qed.

Lemma veo_finished (prompt : string) (config : VideoConfig)
    (inputImage : option FileData) (aistudio : option AIStudio)
    (apiKey : string) (first : VideoOperation)
    (responses pending later : list VideoOperation) (d : VideoOperation)
    (download : bool * string) :
  first :: responses = pending ++ d :: later ->
  Forall (fun o => done o = false) pending -> done d = true ->
  generateVeoVideo prompt config inputImage aistudio apiKey first responses
    download
  = match uri d with
    | Some (String c s) =>
        (if fst download then Resolved (snd download)
         else Threw "Failed to download video bytes",
         ((key_calls aistudio ++ [GenerateVideos prompt inputImage config])
            ++ flat_map (fun _ => one_poll) pending)
           ++ [Fetch (String c s ++ "&key=" ++ apiKey)])
    | _ =>
        (Threw "No video generated",
         (key_calls aistudio ++ [GenerateVideos prompt inputImage config])
           ++ flat_map (fun _ => one_poll) pending)
    end.
Proof.
  intros Heq Hp Hd. unfold generateVeoVideo.
  rewrite (poll_pending pending Hp d later _ _ Heq Hd).
  destruct (uri d) as [[|c s]|]; try reflexivity.
  destruct (fst download); reflexivity.
Qed.

Lemma filter_key_calls (aistudio : option AIStudio) :
  filter is_fetch (key_calls aistudio) = []
  /\ filter is_generate (key_calls aistudio) = [].
Proof.
  unfold key_calls. destruct aistudio as [[[[|]|] [|]]|]; split; reflexivity.
Qed.

(** X14.  How a finished video generation ends.  If the finished operation
    carries no video URI (or an empty one) the call throws "No video
    generated" and downloads nothing.  Otherwise it downloads once, from the
    URI with ["&key="] and the API key appended, and returns the bytes when
    the download is ok, else throws "Failed to download video bytes".  In
    every case [generateVideos] has been called exactly once, with the input
    image when one is given. *)
Theorem veo_outcome (prompt : string) (config : VideoConfig)
    (inputImage : option FileData) (aistudio : option AIStudio)
    (apiKey : string) (first : VideoOperation)
    (responses pending later : list VideoOperation) (d : VideoOperation)
    (download : bool * string) :
  first :: responses = pending ++ d :: later ->
  Forall (fun o => done o = false) pending -> done d = true ->
  let r := generateVeoVideo prompt config inputImage aistudio apiKey first
             responses download in
  filter is_generate (snd r) = [GenerateVideos prompt inputImage config]
  /\ ((uri d = None \/ uri d = Some ""%string) ->
      fst r = Threw "No video generated" /\ filter is_fetch (snd r) = [])
  /\ (forall u, uri d = Some u -> u <> ""%string ->
      filter is_fetch (snd r) = [Fetch (u ++ "&key=" ++ apiKey)]
      /\ (fst download = true -> fst r = Resolved (snd download))
      /\ (fst download = false ->
          fst r = Threw "Failed to download video bytes")).
Proof.
  intros Heq Hp Hd. cbv zeta.
  rewrite (veo_finished prompt config inputImage aistudio apiKey first
             responses pending later d download Heq Hp Hd).
  destruct (count_polls pending) as (_ & Hf & Hg & _).
  destruct (filter_key_calls aistudio) as [Kf Kg].
  split; [|split].
  - destruct (uri d) as [[|c s]|]; cbn [snd];
      rewrite ?filter_app, Kg, Hg; reflexivity.
  - intros [Hu|Hu]; rewrite Hu; cbn [fst snd];
      rewrite ?filter_app, Kf, Hf; split; reflexivity.
  - intros u Hu Hne. rewrite Hu. destruct u as [|c s]; [contradiction|].
    cbn [fst snd]. rewrite ?filter_app, Kf, Hf. cbn [filter is_fetch app].
    split; [reflexivity|]. split; intros ->; reflexivity.
Qed.

(** X15.  The key dialog is opened exactly when [window.aistudio] exists, its
    [hasSelectedApiKey] resolves to false and [openSelectKey] exists; its
    outcome is not looked at: [generateVideos] is the next call in every case,
    also when no key is selected and no dialog can be opened. *)
Theorem key_dialog (prompt : string) (config : VideoConfig)
    (inputImage : option FileData) (aistudio : option AIStudio)
    (apiKey : string) (first : VideoOperation)
    (responses : list VideoOperation) (download : bool * string) :
  let r := generateVeoVideo prompt config inputImage aistudio apiKey first
             responses download in
  (In OpenSelectKey (snd r)
   <-> exists studio,
         aistudio = Some studio /\ hasSelectedApiKey studio = Some false
         /\ openSelectKey studio = true)
  /\ exists rest,
       snd r = key_calls aistudio
               ++ GenerateVideos prompt inputImage config :: rest
       /\ ~ In OpenSelectKey rest.
Proof.
  cbv zeta. unfold generateVeoVideo.
  assert (Hpoll : forall first responses,
            ~ In OpenSelectKey (snd (poll first responses))).
  { clear. intros first responses. revert first.
    induction responses as [|next rest IH]; intros first; rewrite poll_eq;
      destruct (done first); cbn [snd].
    - intros [].
    - intros [H|[H|[]]]; discriminate.
    - intros [].
    - intros [H|[H|H]]; try discriminate. exact (IH next H). }
  specialize (Hpoll first responses).
  destruct (poll first responses) as [final polls]. cbn [snd] in Hpoll.
  assert (Hrest : exists rest,
    snd (match final with
         | Some operation =>
             match uri operation with
             | Some (String c s) =>
                 if fst download
                 then (Resolved (snd download),
                       ((key_calls aistudio
                         ++ [GenerateVideos prompt inputImage config])
                        ++ polls)
                       ++ [Fetch (String c s ++ "&key=" ++ apiKey)])
                 else (Threw "Failed to download video bytes",
                       ((key_calls aistudio
                         ++ [GenerateVideos prompt inputImage config])
                        ++ polls)
                       ++ [Fetch (String c s ++ "&key=" ++ apiKey)])
             | _ => (Threw "No video generated",
                     (key_calls aistudio
                      ++ [GenerateVideos prompt inputImage config]) ++ polls)
             end
         | None =>
             (Polling,
              (key_calls aistudio
               ++ [GenerateVideos prompt inputImage config]) ++ polls)
         end)
    = key_calls aistudio ++ GenerateVideos prompt inputImage config :: rest
    /\ ~ In OpenSelectKey rest).
  { destruct final as [operation|].
    - destruct (uri operation) as [[|c s]|].
      + exists polls. cbn [snd]. rewrite <- app_assoc. split; [reflexivity|].
        exact Hpoll.
      + destruct (fst download); cbn [snd];
          exists (polls ++ [Fetch (String c s ++ "&key=" ++ apiKey)]);
          rewrite <- !app_assoc; (split; [reflexivity|]);
          intros H; apply in_app_or in H; destruct H as [H|[H|[]]];
          try discriminate; exact (Hpoll H).
      + exists polls. cbn [snd]. rewrite <- app_assoc. split; [reflexivity|].
        exact Hpoll.
    - exists polls. cbn [snd]. rewrite <- app_assoc. split; [reflexivity|].
      exact Hpoll. }
  destruct Hrest as (rest & Heq & Hno).
  split; [|exists rest; split; assumption].
  rewrite Heq. split.
  - intros H. apply in_app_or in H. destruct H as [H|[H|H]];
      [|discriminate|contradiction].
    unfold key_calls in H. destruct aistudio as [studio|]; [|destruct H].
    destruct (hasSelectedApiKey studio) as [hasKey|] eqn:Hk; [|destruct H].
    destruct H as [H|H]; [discriminate|].
    destruct hasKey; cbn [negb andb] in H; [destruct H|].
    destruct (openSelectKey studio) eqn:Ho; [|destruct H].
    exists studio. repeat split; assumption.
  - intros (studio & -> & Hk & Ho). apply in_or_app. left.
    unfold key_calls. rewrite Hk, Ho. right. left. reflexivity.
Qed.
End GeminiServiceFacts.

(** * Properties of ChatInterface *)

Section ChatInterfaceFacts.

Import ChatInterface.

Lemma handleSend_refused (P : Platform) (mode : Mode) (st : State)
    (contentResult : Settled GenerateContentResponse)
    (videoResult : Settled string) :
  refused P st = true ->
  handleSend P mode st contentResult videoResult = (st, []).
Proof.
  unfold refused, handleSend. intros ->. reflexivity.
Qed.

(** X16.  [handleSend] does nothing at all (no message, no call, no state
    change) while a request is loading, and when the text is blank after
    trimming and no file is attached.  Whenever the send button is disabled
    the handler does nothing; the converse fails for text made of white space
    only, where the button is enabled and the handler still does nothing. *)
Theorem send_guard (P : Platform) (mode : Mode) (st : State)
    (contentResult : Settled GenerateContentResponse)
    (videoResult : Settled string) :
  trim P ""%string = ""%string ->
  (isLoading st = true ->
   handleSend P mode st contentResult videoResult = (st, []))
  /\ (truthy (trim P (inputText st)) = false -> files st = [] ->
      handleSend P mode st contentResult videoResult = (st, []))
  /\ (sendDisabled st = true ->
      handleSend P mode st contentResult videoResult = (st, []))
  /\ (truthy (inputText st) = true ->
      truthy (trim P (inputText st)) = false ->
      files st = [] -> isLoading st = false ->
      sendDisabled st = false
      /\ handleSend P mode st contentResult videoResult = (st, [])).
Proof.
  intros Htrim.
  assert (H1 : isLoading st = true -> refused P st = true).
  { unfold refused. intros ->. apply orb_true_r. }
  assert (H2 : truthy (trim P (inputText st)) = false -> files st = [] ->
               refused P st = true).
  { unfold refused. intros -> ->. reflexivity. }
  split; [intros H; apply handleSend_refused, H1, H|].
  split; [intros Ht Hf; apply handleSend_refused, H2; assumption|].
  split.
  - unfold sendDisabled. intros Hd. apply handleSend_refused.
    apply orb_true_iff in Hd. destruct Hd as [Hd|Hd]; [apply H1, Hd|].
    apply andb_true_iff in Hd. destruct Hd as [Hempty Hfiles].
    destruct (inputText st) eqn:Hin; [|discriminate Hempty].
    unfold refused. rewrite Hin, Htrim, Hfiles. reflexivity.
  - intros Ht Hblank Hf Hl. split.
    + unfold sendDisabled. rewrite Hl, Ht. reflexivity.
    + apply handleSend_refused, H2; assumption.
Qed.

Lemma respond_one_call (P : Platform) (mode : Mode) (st : State)
    (contentResult : Settled GenerateContentResponse)
    (videoResult : Settled string) :
  length (snd (respond P mode st contentResult videoResult)) = 1%nat.
Proof.
  unfold respond. destruct mode; [|reflexivity|reflexivity].
  destruct ((0 <? length (files st))%nat
            && includes (toLowerCase P (inputText st)) "edit");
    destruct (files st); reflexivity.
Qed.

(** X17.  Every send that passes the guard, in every mode and whether the
    call succeeds or throws, makes exactly one service call and appends
    exactly two messages: the user's, carrying the typed text, then one from
    the model; it clears the text box and the attachments and ends with
    [isLoading] false. *)
Theorem accepted_send (P : Platform) (mode : Mode) (st : State)
    (contentResult : Settled GenerateContentResponse)
    (videoResult : Settled string) :
  refused P st = false ->
  let r := handleSend P mode st contentResult videoResult in
  (exists u m,
     messages (fst r) = messages st ++ [u; m]
     /\ role u = user /\ text u = Some (inputText st)
     /\ id u = toString (now P 0) /\ role m = model)
  /\ length (messages (fst r)) = (length (messages st) + 2)%nat
  /\ inputText (fst r) = ""%string
  /\ files (fst r) = []
  /\ isLoading (fst r) = false
  /\ config (fst r) = config st
  /\ length (snd r) = 1%nat.
Proof.
  intros Hok. cbv zeta. unfold handleSend. unfold refused in Hok.
  rewrite Hok.
  pose proof (respond_one_call P mode st contentResult videoResult) as Hone.
  destruct (respond P mode st contentResult videoResult) as [outcome calls].
  cbn [fst snd] in *. cbn [messages inputText files isLoading config
                            with_messages].
  split.
  - eexists _, _. split; [reflexivity|].
    cbn [role text id]. repeat split. destruct outcome; reflexivity.
  - rewrite length_app. cbn [app length].
    split; [lia|]. split; [reflexivity|]. split; [reflexivity|].
    split; [reflexivity|]. split; [reflexivity|exact Hone].
Qed.

(** X18.  When the awaited call throws, the model's message reads "Error: "
    followed by the error's message, or by "Something went wrong." when the
    error has no message or an empty one; it carries no image, video or
    grounding. *)
Theorem failed_send (P : Platform) (mode : Mode) (st : State)
    (contentResult : Settled GenerateContentResponse)
    (videoResult : Settled string) (m : option string) :
  refused P st = false ->
  match mode with
  | VIDEO_GEN => videoResult = Thrown m
  | _ => contentResult = Thrown m
  end ->
  let reply :=
    last (messages (fst (handleSend P mode st contentResult videoResult)))
      {| id := ""; role := user; text := None; image := None;
         videoUri := None; grounding := None; timestamp := 0 |} in
  role reply = model
  /\ text reply
     = Some ("Error: "
             ++ match m with
                | Some (String c s) => String c s
                | _ => "Something went wrong."
                end)%string
  /\ image reply = None /\ videoUri reply = None /\ grounding reply = None
  /\ id reply = toString (now P 2).
Proof.
  intros Hok Hres. cbv zeta. unfold handleSend. unfold refused in Hok.
  rewrite Hok.
  assert (Hout : fst (respond P mode st contentResult videoResult)
                 = Thrown m).
  { unfold respond. destruct mode; rewrite Hres; cbn [fst]; try reflexivity.
    destruct ((0 <? length (files st))%nat
              && includes (toLowerCase P (inputText st)) "edit");
      destruct (files st); reflexivity. }
  destruct (respond P mode st contentResult videoResult) as [outcome calls].
  cbn [fst] in Hout. subst outcome.
  cbn [fst messages with_messages]. rewrite app_assoc, last_last.
  cbn [role text image videoUri grounding id].
  destruct m as [[|c s]|]; repeat split.
Qed.

Lemma string_app_nil_r (s : string) : (s ++ "")%string = s.
Proof. induction s as [|c s IH]; cbn; [reflexivity|]. rewrite IH. reflexivity. Qed.

Lemma string_app_assoc (a b c : string) :
  ((a ++ b) ++ c)%string = (a ++ (b ++ c))%string.
Proof. induction a as [|x a IH]; cbn; [reflexivity|]. rewrite IH. reflexivity. Qed.

Lemma last_inline_snoc (p : Part) (ps : list Part) (i : option string) :
  hasInline p = true ->
  match rev (filter hasInline (p :: ps)) with
  | q :: _ => partInlineData q ?. blobData
  | [] => i
  end
  = match rev (filter hasInline ps) with
    | q :: _ => partInlineData q ?. blobData
    | [] => partInlineData p ?. blobData
    end.
Proof.
  intros Hp. cbn [filter]. rewrite Hp. cbn [rev].
  destruct (rev (filter hasInline ps)); reflexivity.
Qed.

Lemma edit_fold (ps : list Part) :
  forall (t : string) (i : option string),
  fold_left editStep ps (t, i)
  = ((t ++ joined (partTexts (filter (fun p => negb (hasInline p)) ps)))%string,
     match rev (filter hasInline ps) with
     | q :: _ => partInlineData q ?. blobData
     | [] => i
     end).
Proof.
  induction ps as [|p ps IH]; intros t i.
  - cbn. rewrite string_app_nil_r. reflexivity.
  - cbn [fold_left]. unfold editStep at 2. cbn [fst snd].
    destruct (partInlineData p) as [blob|] eqn:Hin.
    + assert (Hp : hasInline p = true)
        by (unfold hasInline; rewrite Hin; reflexivity).
      rewrite IH, (last_inline_snoc p ps i Hp).
      cbn [filter]. rewrite Hp, Hin. reflexivity.
    + assert (Hp : hasInline p = false)
        by (unfold hasInline; rewrite Hin; reflexivity).
      cbn [filter]. rewrite Hp. cbn [negb]. unfold partTexts.
      cbn [flat_map].
      destruct (partText p) as [s|]; [destruct (truthy s)|];
        cbn [fst snd]; rewrite IH; cbn [app joined fold_right];
        rewrite ?string_app_assoc; reflexivity.
Qed.

Lemma image_fold (ps : list Part) :
  forall (t : string) (i : option string),
  fold_left imageStep ps (t, i)
  = ((t ++ joined (partTexts ps))%string,
     match rev (filter hasInline ps) with
     | q :: _ => partInlineData q ?. blobData
     | [] => i
     end).
Proof.
  induction ps as [|p ps IH]; intros t i.
  - cbn. rewrite string_app_nil_r. reflexivity.
  - cbn [fold_left]. unfold imageStep at 2. cbn [fst snd].
    unfold partTexts. cbn [flat_map].
    destruct (partInlineData p) as [blob|] eqn:Hin.
    + assert (Hp : hasInline p = true)
        by (unfold hasInline; rewrite Hin; reflexivity).
      rewrite (last_inline_snoc p ps i Hp). rewrite Hin.
      destruct (partText p) as [s|]; [destruct (truthy s)|];
        cbn [fst snd]; rewrite IH; cbn [app joined fold_right chain];
        rewrite ?string_app_assoc; reflexivity.
    + assert (Hp : hasInline p = false)
        by (unfold hasInline; rewrite Hin; reflexivity).
      cbn [filter]. rewrite Hp.
      destruct (partText p) as [s|]; [destruct (truthy s)|];
        cbn [fst snd]; rewrite IH; cbn [app joined fold_right];
        rewrite ?string_app_assoc; reflexivity.
Qed.

(** X19.  What a reply shows of the response parts.  After an image
    generation the text is every non-empty part text joined in order; after
    an edit the texts of parts that carry inline data are left out.  In both
    the image is the data of the last part that carries inline data (none if
    that part has no data), earlier images being overwritten. *)
Theorem reply_from_parts (P : Platform) (st : State)
    (res : GenerateContentResponse) (videoResult : Settled string) :
  fst (respond P IMAGE_GEN st (Returned res) videoResult)
  = Returned
      {| replyText := joined (partTexts (responseParts res));
         generatedImage := lastInline (responseParts res);
         replyVideo := None; groundingData := None |}
  /\ (forall file rest,
        files st = file :: rest ->
        includes (toLowerCase P (inputText st)) "edit" = true ->
        fst (respond P CHAT st (Returned res) videoResult)
        = Returned
            {| replyText :=
                 joined (partTexts
                           (filter (fun p => negb (hasInline p))
                              (responseParts res)));
               generatedImage := lastInline (responseParts res);
               replyVideo := None; groundingData := None |}).
Proof.
  split.
  - unfold respond. cbn [fst]. rewrite image_fold. reflexivity.
  - intros file rest Hf Hedit. unfold respond. rewrite Hf, Hedit.
    cbn [length Nat.ltb Nat.leb andb fst]. rewrite edit_fold. reflexivity.
Qed.

Lemma orElse_empty (s : string) : orElse s "" = s.
Proof. destruct s; reflexivity. Qed.

Lemma push_file_parts (files : list GeminiService.FileData)
    (acc : list GeminiService.RequestPart) :
  fold_left (fun parts f => parts ++ [GeminiService.InlinePart f]) files acc
  = acc ++ map GeminiService.InlinePart files.
Proof.
  revert acc. induction files as [|f files IH]; intros acc; cbn [fold_left map].
  - rewrite app_nil_r. reflexivity.
  - rewrite IH, <- app_assoc. reflexivity.
Qed.

(** X20.  Which service a chat message goes to.  With a file attached and
    "edit" in the lower-cased text it is an image edit of the first file,
    with the prompt "Edit this image" when the text is empty.  Otherwise it is
    a chat request with an empty history whose parts are all attached files
    in order followed by the typed text as it is, untrimmed. *)
Theorem chat_dispatch (P : Platform) (st : State)
    (contentResult : Settled GenerateContentResponse)
    (videoResult : Settled string) :
  (forall file rest,
     files st = file :: rest ->
     includes (toLowerCase P (inputText st)) "edit" = true ->
     snd (respond P CHAT st contentResult videoResult)
     = [EditImage (orElse (inputText st) "Edit this image")
          (data file) (mimeType file)])
  /\ (files st = []
      \/ includes (toLowerCase P (inputText st)) "edit" = false ->
      exists request,
        snd (respond P CHAT st contentResult videoResult)
        = [GenerateChatResponse request]
        /\ request
           = GeminiService.generateChatResponse (inputText st) []
               (map toFileData (files st)) (config st) (location st)
        /\ GeminiService.contents request
           = map (fun f => GeminiService.InlinePart (toFileData f)) (files st)
             ++ [GeminiService.TextPart (inputText st)]).
Proof.
  split.
  - intros file rest Hf Hedit. unfold respond. rewrite Hf, Hedit. reflexivity.
  - intros Hno. eexists. split; [|split; [reflexivity|]].
    + unfold respond. rewrite orElse_empty.
      destruct Hno as [Hf|Hedit].
      * rewrite Hf. reflexivity.
      * rewrite Hedit, andb_false_r. reflexivity.
    + unfold GeminiService.generateChatResponse. cbn [GeminiService.contents].
      rewrite push_file_parts, map_map. reflexivity.
Qed.

(** X21.  A video request end to end.  When the finished operation carries no
    video URI the chat shows "Error: No video generated"; when the download
    is refused it shows "Error: Failed to download video bytes"; otherwise it
    shows the fixed caption and the object URL made from the downloaded
    bytes. *)
Theorem video_reply (P : Platform) (st : State)
    (contentResult : Settled GenerateContentResponse)
    (aistudio : option GeminiService.AIStudio) (apiKey : string)
    (first : GeminiService.VideoOperation)
    (responses pending later : list GeminiService.VideoOperation)
    (d : GeminiService.VideoOperation) (download : bool * string) :
  refused P st = false ->
  first :: responses = pending ++ d :: later ->
  Forall (fun o => GeminiService.done o = false) pending ->
  GeminiService.done d = true ->
  exists v,
    settle
      (fst (GeminiService.generateVeoVideo
              (orElse (inputText st) "Generate video") (vidConfig st)
              (match files st with
               | file :: _ => Some (toFileData file)
               | [] => None
               end) aistudio apiKey first responses download))
    = Some v
    /\ let reply :=
         last (messages (fst (handleSend P VIDEO_GEN st contentResult v)))
           noMessage in
       role reply = model
       /\ ((GeminiService.uri d = None
            \/ GeminiService.uri d = Some ""%string) ->
           text reply = Some "Error: No video generated"%string
           /\ videoUri reply = None)
       /\ (forall u, GeminiService.uri d = Some u -> u <> ""%string ->
           (fst download = false ->
            text reply = Some "Error: Failed to download video bytes"%string
            /\ videoUri reply = None)
           /\ (fst download = true ->
               text reply
               = Some "Here is your generated video using Veo 3."%string
               /\ videoUri reply = Some (createObjectURL P (snd download)))).
Proof.
  intros Hok Heq Hp Hd.
  rewrite (veo_finished _ _ _ aistudio apiKey first responses pending later d
             download Heq Hp Hd).
  unfold handleSend. unfold refused in Hok. rewrite Hok.
  destruct (GeminiService.uri d) as [[|c s]|] eqn:Hu.
  - eexists. split; [reflexivity|]. cbn [respond fst snd messages
      with_messages]. rewrite app_assoc, last_last. cbn [role text videoUri].
    split; [reflexivity|]. split; [intros _; split; reflexivity|].
    intros u Hu' Hne. injection Hu' as <-. contradiction.
  - destruct (fst download) eqn:Hdl; cbn [fst settle];
      (eexists; split; [reflexivity|]);
      cbn [respond fst snd messages with_messages];
      rewrite app_assoc, last_last; cbn [role text videoUri replyText
        replyVideo];
      (split; [reflexivity|]);
      (split; [intros [H|H]; discriminate|]);
      intros u Hu' Hne; (split; intros Hx; try discriminate);
      split; reflexivity.
  - eexists. split; [reflexivity|]. cbn [respond fst snd messages
      with_messages]. rewrite app_assoc, last_last. cbn [role text videoUri].
    split; [reflexivity|]. split; [intros _; split; reflexivity|].
    intros u Hu'. discriminate.
Qed.
End ChatInterfaceFacts.

(** * Worked instances *)

(** ** Scheduling *)

Example arrivals_schedule :
  starts (snd (run browser opened arrivals))
  = [(1 # 1, 3 # 24000); (24003 # 24000, 6 # 24000); (5 # 1, 3 # 24000)]%Q.
Proof. vm_compute. reflexivity. Qed.

Example in_flight_schedule :
  starts (snd (turns unrounded browser (idle opened) in_flight))
  = [(16385 # 16384, 3 # 24000); (393289152 # 393216000, 6 # 24000);
     (5 # 1, 3 # 24000)]%Q.
Proof. vm_compute. reflexivity. Qed.

(** The two halves of the handler behind one another are [onmessage]. *)
Example arrival_then_resumption :
  turns unrounded browser (idle opened) [Deliver (Message 1 audio3); Resume 0]
  = (idle (fst (onmessage browser opened 1 audio3)),
     snd (onmessage browser opened 1 audio3)).
Proof. vm_compute. reflexivity. Qed.

Lemma playback_in_sequence_witness :
  Forall (fun t => calm t = true) in_flight
  /\ in_sequence binary64 (nextStartTimeRef opened)
       (starts (snd (turns binary64 browser (idle opened) in_flight)))
  /\ forward binary64
       (starts (snd (turns binary64 browser (idle opened) in_flight)))
  /\ (16385 # 16384
      <= nextStartTimeRef
           (component
              (fst (turns binary64 browser (idle opened)
                      (firstn 4 in_flight)))))%Q.
Proof.
  assert (Hcalm : Forall (fun t => calm t = true) in_flight)
    by (repeat constructor).
  assert (Hfw : forward binary64
                  (starts (snd (turns binary64 browser (idle opened)
                                  in_flight))))
    by (unfold forward;
        replace (starts (snd (turns binary64 browser (idle opened) in_flight)))
          with [(16385 # 16384, 3 # 24000);
                (plus binary64 (16385 # 16384) (3 # 24000), 6 # 24000);
                (5 # 1, 3 # 24000)]%Q by (vm_compute; reflexivity);
        repeat constructor; vm_compute; discriminate).
  destruct (playback_in_sequence binary64 browser opened in_flight Hcalm)
    as (Hseq & _ & Hres).
  split; [exact Hcalm|]. split; [exact Hseq|]. split; [exact Hfw|].
  assert (Hk : nth_error
                 (suspended
                    (fst (turns binary64 browser (idle opened)
                            (firstn 4 in_flight)))) 0
               = Some {| arrived := 16385 # 16384; heldContext := 3%nat;
                         heldBytes := repeat x00 12;
                         heldMessage := audio6 |})
    by (vm_compute; reflexivity).
  exact (proj2 (Hres (firstn 4 in_flight) 0%nat (skipn 5 in_flight) eq_refl
                  _ Hk) Hfw).
Defined.

(** 1 + 1/8000 in double precision: 2^-52 * 4504162577323917, which is
    below the exact sum. *)
Example rounded_sum :
  plus binary64 1 (3 # 24000) = (4504162577323917 # 4503599627370496)%Q
  /\ (4504162577323917 # 4503599627370496 < 1 + (3 # 24000))%Q.
Proof. split; vm_compute; reflexivity. Qed.

(** Three ways a buffer is started before the end of the one before it or
    before its own arrival.  In double precision 1 + 1/8000 rounds down, so
    the second of two buffers that arrive together starts before the exact
    end of the first.  After a buffer whose message carries the interruption
    flag the cursor is 0, not the end of that buffer, and the next buffer
    starts at its arrival time.  A flag-only message handled while an
    earlier call awaits its decoder sets the cursor to 0, and that call
    then starts its buffer at 0, before the device time 1 of its arrival. *)
Lemma started_early :
  (starts (snd (turns binary64 browser (idle opened)
                  [Deliver (Message 1 audio3); Resume 0;
                   Deliver (Message 1 audio3); Resume 0]))
   = [(1, 3 # 24000); (plus binary64 1 (3 # 24000), 3 # 24000)]%Q
   /\ (plus binary64 1 (3 # 24000) < 1 + (3 # 24000))%Q
   /\ (plus binary64 1 (3 # 24000)
       < 1 + Q_of_double (double_of_Q (3 # 24000)))%Q)
  /\ (starts (snd (turns unrounded browser (idle opened)
                     [Deliver (Message 1 audio3_interrupt); Resume 0;
                      Deliver (Message (16385 # 16384) audio3); Resume 0]))
      = [(1, 3 # 24000); (16385 # 16384, 3 # 24000)]%Q
      /\ (16385 # 16384 < 1 + (3 # 24000))%Q
      /\ nextStartTimeRef
           (component
              (fst (turns unrounded browser (idle opened)
                      [Deliver (Message 1 audio3_interrupt); Resume 0])))
         = 0%Q)
  /\ (snd (turns unrounded browser (idle opened)
             [Deliver (Message 1 audio3); Deliver (Message 1 interrupt);
              Resume 0])
      = [CreateBufferSource 3%nat 7%nat;
         SourceStart 7%nat {| duration := 3 # 24000 |} 0]
      /\ (0 < 1)%Q).
Proof.
  split; [|split].
  - split; [vm_compute; reflexivity|]. split; vm_compute; reflexivity.
  - split; [vm_compute; reflexivity|]. split; vm_compute; reflexivity.
  - split; vm_compute; reflexivity.
Qed.

(** ** Interruption *)



(** ** Teardown *)



Lemma stop_twice_witness :
  inputContextRef opened = Some 2%nat
  /\ outputContextRef opened = Some 3%nat
  /\ count (closes 2%nat) (snd (stopSession opened)) = 1%nat
  /\ count (closes 3%nat) (snd (stopSession opened)) = 1%nat
  /\ count (stops_track 100%nat) (snd (stopSession opened)) = 1%nat
  /\ count (clears 6%nat) (snd (stopSession opened)) = 1%nat
  /\ count (closes_session 4%nat) (snd (stopSession opened)) = 1%nat
  /\ fst (stopSession (fst (stopSession opened))) = fst (stopSession opened).
Proof.
  destruct (stop_twice opened)
    as (_ & Htracks & Hctx & Htimer & Hsess & Hsame & _).
  assert (Hne : 2%nat <> 3%nat) by discriminate.
  destruct (Hctx 2%nat 3%nat eq_refl eq_refl Hne) as [Hin Hout].
  split; [reflexivity|]. split; [reflexivity|].
  split; [exact Hin|]. split; [exact Hout|].
  split; [exact (Htracks cam 100%nat eq_refl)|].
  split; [exact (Htimer 5%nat eq_refl)|].
  split; [exact (Hsess 4%nat eq_refl)|exact Hsame].
Defined.

(** Two calls of [stop()] in a row: every release is issued twice, and the
    stream, context and timer references are still set afterwards. *)
Lemma stop_twice_releases_twice :
  let r := run browser opened [Stop; Stop] in
  count (closes 2%nat) (snd r) = 2%nat
  /\ count (closes 3%nat) (snd r) = 2%nat
  /\ count (stops_track 100%nat) (snd r) = 2%nat
  /\ count (stops_track 101%nat) (snd r) = 2%nat
  /\ count (clears 6%nat) (snd r) = 2%nat
  /\ streamRef (fst r) = Some cam
  /\ inputContextRef (fst r) = Some 2%nat
  /\ outputContextRef (fst r) = Some 3%nat
  /\ frameIntervalRef (fst r) = Some 6%nat.
Proof. repeat split; vm_compute; reflexivity. Qed.

(** [stop()] while [getUserMedia] is pending: the stream granted afterwards
    is stored and the transport connected; no call stops its tracks. *)
Example stop_while_acquiring :
  let r := run browser mounted [Start; Stop; Media (Granted cam)] in
  count (stops_track 100%nat) (snd r) = 0%nat
  /\ count is_connect (snd r) = 1%nat
  /\ streamRef (fst r) = Some cam
  /\ sessionRef (fst r) = Some 4%nat.
Proof. repeat split; vm_compute; reflexivity. Qed.

(** ** Errors *)

Lemma transport_error_text_replaced :
  let e := {| message := "WebSocket closed: 1006"%string |} in
  error (fst (onerror opened e)) = Some "Connection error."%string
  /\ error (fst (onerror opened e)) <> Some (message e)
  /\ snd (onerror opened e)
     = [ConsoleError ["Live API Error"%string;
                      "WebSocket closed: 1006"%string]].
Proof.
  cbv zeta. split; [reflexivity|]. split; [discriminate|reflexivity].
Qed.

Lemma transport_error_recorded_witness :
  Forall (fun ev => keeps_error ev = true) [Close; Message 2 audio3; Stop]
  /\ error (fst (run browser
                   (fst (onerror opened {| message := "timeout"%string |}))
                   [Close; Message 2 audio3; Stop]))
     = Some "Connection error."%string.
Proof.
  assert (H : Forall (fun ev => keeps_error ev = true)
                [Close; Message 2 audio3; Stop]) by (repeat constructor).
  split; [exact H|].
  destruct (transport_error_recorded opened {| message := "timeout"%string |})
    as (_ & _ & _ & _ & Hkeep).
  exact (Hkeep browser _ H).
Defined.

(** Device access denied on the first [start()]: both contexts have been
    created, neither is closed, both references stay set. *)
Lemma contexts_left_open_on_denial :
  let r := run browser mounted [Start; Media (Denied "NotAllowedError")] in
  snd r = [NewAudioContext 2%nat 16000; NewAudioContext 3%nat 24000;
           GetUserMedia; ConsoleError ["NotAllowedError"%string]]
  /\ count is_close (snd r) = 0%nat
  /\ inputContextRef (fst r) = Some 2%nat
  /\ outputContextRef (fst r) = Some 3%nat.
Proof. repeat split; vm_compute; reflexivity. Qed.

(** ** Capture *)

Lemma visualizer_update_witness :
  [1 # 2; -1 # 4]%Q <> []
  /\ length (visualizerData opened) = 10%nat
  /\ count is_visualizer_update
       (snd (onaudioprocess browser opened 4%nat [1 # 2; -1 # 4]%Q)) = 1%nat
  /\ (nth 1 (visualizerData
               (fst (onaudioprocess browser opened 4%nat [1 # 2; -1 # 4]%Q))) 0
      == random browser 1 * 20 + mean_abs [1 # 2; -1 # 4] * 500)%Q.
Proof.
  assert (Hne : [1 # 2; -1 # 4]%Q <> []) by discriminate.
  assert (Hlen : length (visualizerData opened) = 10%nat) by reflexivity.
  destruct (visualizer_update browser opened 4%nat [1 # 2; -1 # 4]%Q Hne Hlen)
    as (Hone & _ & _ & Hbar & _).
  split; [exact Hne|]. split; [exact Hlen|]. split; [exact Hone|].
  apply (Hbar 1%nat). repeat constructor.
Defined.

Example visualizer_bars :
  visualizerData (fst (onaudioprocess browser opened 4%nat [1 # 2; -1 # 4]%Q))
  = [300000 # 1600; 311840 # 1600; 323680 # 1600; 303520 # 1600;
     315360 # 1600; 327200 # 1600; 307040 # 1600; 318880 # 1600;
     330720 # 1600; 310560 # 1600]%Q.
Proof. vm_compute. reflexivity. Qed.

(** ** Restart *)

Lemma start_resets_clock_witness :
  nextStartTimeRef playing = (24003 # 24000)%Q
  /\ nextStartTimeRef (fst (startSession playing (Granted cam))) = 0%Q
  /\ (9 # 1 = Qmax 0 (9 # 1))%Q.
Proof.
  destruct (start_resets_clock playing (Granted cam)) as (_ & H0 & _ & Hfirst).
  split; [reflexivity|]. split; [exact H0|].
  apply (Hfirst browser (9 # 1)%Q audio3 11%nat {| duration := 3 # 24000 |}).
  vm_compute. right. left. reflexivity.
Defined.

(** ** Later parts *)

Lemma only_first_part_examined_witness :
  onmessage browser opened 1 late_audio
  = onmessage browser opened 1 (server_message [text_part "hi"] None)
  /\ count is_start (snd (onmessage browser opened 1 late_audio)) = 0%nat.
Proof.
  destruct (only_first_part_examined browser opened 1) as (_ & Htail & Hnone).
  split.
  - exact (Htail (text_part "hi") [audio_part "AAAAAAAA"] [] None).
  - exact (Hnone (text_part "hi") [audio_part "AAAAAAAA"] None eq_refl).
Defined.

Example late_audio_ignored :
  onmessage browser opened 1 late_audio = (opened, []).
Proof. vm_compute. reflexivity. Qed.

(** ** Further instances: LiveSession *)

Lemma active_sources_started_witness :
  sourcesRef opened = []
  /\ In 8%nat (sourcesRef (fst (run browser opened arrivals)))
  /\ exists buf t,
       In (SourceStart 8%nat buf t) (snd (run browser opened arrivals)).
Proof.
  assert (H0 : sourcesRef opened = []) by reflexivity.
  assert (H1 : In 8%nat (sourcesRef (fst (run browser opened arrivals))))
    by (vm_compute; left; reflexivity).
  split; [exact H0|]. split; [exact H1|].
  exact (active_sources_started browser arrivals opened 8%nat H0 H1).
Defined.

Lemma ended_source_not_stopped_witness :
  base64Audio interrupt = None
  /\ is_true (interruptedFlag interrupt) = true
  /\ ~ In 7%nat (sourcesRef (fst (run browser opened
                                    ([Message 1 audio3; Message 2 audio6]
                                     ++ [Ended 7%nat]))))
  /\ snd (onmessage browser
            (fst (run browser opened
                    ([Message 1 audio3; Message 2 audio6] ++ [Ended 7%nat])))
            3 interrupt)
     = map SourceStop
         (set_delete 7%nat
            (sourcesRef (fst (run browser opened
                                [Message 1 audio3; Message 2 audio6])))).
Proof.
  assert (Ha : base64Audio interrupt = None) by reflexivity.
  assert (Hf : is_true (interruptedFlag interrupt) = true) by reflexivity.
  destruct (ended_source_not_stopped browser opened
              [Message 1 audio3; Message 2 audio6] 7%nat 3 interrupt Ha Hf)
    as (Hout & _ & Heff & _).
  split; [exact Ha|]. split; [exact Hf|]. split; [exact Hout|exact Heff].
Defined.

Lemma visualizer_keeps_its_bars_witness :
  visualizerData mounted = visualizerData mounted
  /\ length (visualizerData (fst (run browser mounted
               [Start; Media (Granted cam); Open 4%nat cam;
                AudioProcess 4%nat [1 # 2; -1 # 4]%Q; Stop]))) = 10%nat.
Proof.
  split; [reflexivity|].
  exact (proj2 (visualizer_keeps_its_bars browser _ mounted) eq_refl).
Defined.

Lemma session_released_once_witness :
  videoRef mounted <> None /\ canvasRef mounted <> None
  /\ count (sets_timer 6%nat)
       (snd (run browser mounted
               [Start; Media (Granted cam); Open 4%nat cam; Stop])) = 1%nat
  /\ count (clears 6%nat)
       (snd (run browser mounted
               [Start; Media (Granted cam); Open 4%nat cam; Stop])) = 1%nat
  /\ count (closes 2%nat)
       (snd (run browser mounted
               [Start; Media (Granted cam); Open 4%nat cam; Stop])) = 1%nat.
Proof.
  assert (Hv : videoRef mounted <> None) by discriminate.
  assert (Hc : canvasRef mounted <> None) by discriminate.
  destruct (session_released_once browser mounted cam)
    as (_ & _ & Hin & _ & _ & _ & Ht & _).
  destruct (Ht Hv Hc) as [Hset Hclr].
  split; [exact Hv|]. split; [exact Hc|].
  split; [exact Hset|]. split; [exact Hclr|exact Hin].
Defined.

Lemma overwritten_handles_not_released_witness :
  videoRef connecting <> None /\ canvasRef connecting <> None
  /\ inputContextRef connecting <> None
  /\ count (sets_timer 6%nat)
       (snd (run browser connecting [Open 4%nat cam; Open 4%nat cam; Stop]))
     = 1%nat
  /\ count (clears 6%nat)
       (snd (run browser connecting [Open 4%nat cam; Open 4%nat cam; Stop]))
     = 0%nat
  /\ count (closes 2%nat)
       (snd (run browser mounted
               [Start; Media (Denied "NotAllowedError"); Start;
                Media (Granted cam); Stop])) = 0%nat.
Proof.
  assert (Hv : videoRef connecting <> None) by discriminate.
  assert (Hc : canvasRef connecting <> None) by discriminate.
  assert (Hi : inputContextRef connecting <> None) by discriminate.
  destruct (overwritten_handles_not_released browser connecting
              "NotAllowedError" cam) as [_ Ht].
  destruct (Ht Hv Hc Hi 4%nat 4%nat) as (Hset & Hclr & _).
  destruct (overwritten_handles_not_released browser mounted
              "NotAllowedError" cam) as [(_ & Hleak & _) _].
  split; [exact Hv|]. split; [exact Hc|]. split; [exact Hi|].
  split; [exact Hset|]. split; [exact Hclr|exact Hleak].
Defined.

(** ** Further instances: geminiService *)

Lemma thinking_budget_witness :
  GeminiService.modelTier fast = GeminiService.FAST
  /\ GeminiService.thinkingConfig
       (GeminiService.generateChatResponse "hi" [] [] standard (Some here))
     = Some 32768
  /\ GeminiService.model
       (GeminiService.generateChatResponse "hi" [] [] standard (Some here))
     = "gemini-3-pro-preview"%string
  /\ GeminiService.generateChatResponse "hi" [] []
       {| GeminiService.useSearch := false; GeminiService.useMaps := false;
          GeminiService.useThinking := false;
          GeminiService.modelTier := GeminiService.FAST |} None
     = GeminiService.generateChatResponse "hi" [] [] fast None.
Proof.
  destruct (thinking_budget "hi" [] [] standard (Some here))
    as (Hsome & _ & Hpro & _).
  destruct (thinking_budget "hi" [] [] fast None) as (_ & _ & _ & Hfast).
  assert (Hb : GeminiService.thinkingConfig
                 (GeminiService.generateChatResponse "hi" [] [] standard
                    (Some here)) = Some 32768).
  { apply Hsome. split; [reflexivity|discriminate]. }
  split; [reflexivity|]. split; [exact Hb|].
  split; [apply Hpro; rewrite Hb; discriminate|].
  exact (Hfast eq_refl false).
Defined.

Lemma chat_contents_witness :
  nth_error [ChatInterface.toFileData photo] 0
  = Some (ChatInterface.toFileData photo)
  /\ nth_error
       (GeminiService.contents
          (GeminiService.generateChatResponse "what is this?" []
             [ChatInterface.toFileData photo] standard None)) 0
     = Some (GeminiService.InlinePart (ChatInterface.toFileData photo)).
Proof.
  split; [reflexivity|].
  destruct (chat_contents "what is this?" []
              [ChatInterface.toFileData photo] standard None)
    as (_ & _ & _ & Hnth).
  exact (Hnth 0%nat _ eq_refl).
Defined.

Lemma chat_tools_witness :
  GeminiService.useSearch standard = true
  /\ GeminiService.useMaps standard = true
  /\ GeminiService.tools
       (GeminiService.generateChatResponse "cafes nearby" [] [] standard
          (Some here))
     = Some [GeminiService.googleSearch; GeminiService.googleMaps]
  /\ exists ts,
       GeminiService.tools
         (GeminiService.generateChatResponse "cafes nearby" [] [] standard
            (Some here)) = Some ts
       /\ In GeminiService.googleMaps ts.
Proof.
  destruct (chat_tools "cafes nearby" [] [] standard (Some here))
    as (_ & _ & _ & Hboth & _ & Hloc).
  split; [reflexivity|]. split; [reflexivity|].
  split; [exact (Hboth eq_refl eq_refl)|].
  apply Hloc. discriminate.
Defined.

Lemma polling_stops_at_first_done_witness :
  unfinished :: [unfinished; finished (Some "https://v/1"%string); unfinished]
  = [unfinished; unfinished]
    ++ finished (Some "https://v/1"%string) :: [unfinished]
  /\ Forall (fun o => GeminiService.done o = false) [unfinished; unfinished]
  /\ GeminiService.done (finished (Some "https://v/1"%string)) = true
  /\ length
       (filter GeminiService.is_poll
          (snd (GeminiService.poll unfinished
                  [unfinished; finished (Some "https://v/1"%string);
                   unfinished]))) = 2%nat.
Proof.
  assert (Hp : Forall (fun o => GeminiService.done o = false)
                 [unfinished; unfinished]) by (repeat constructor).
  destruct (polling_stops_at_first_done unfinished
              [unfinished; finished (Some "https://v/1"%string); unfinished]
              [unfinished; unfinished] [unfinished]
              (finished (Some "https://v/1"%string))) as (Hstop & _ & _).
  split; [reflexivity|]. split; [exact Hp|]. split; [reflexivity|].
  exact (proj2 (Hstop eq_refl Hp eq_refl)).
Defined.

Lemma veo_outcome_witness :
  unfinished :: [finished None] = [unfinished] ++ finished None :: []
  /\ Forall (fun o => GeminiService.done o = false) [unfinished]
  /\ GeminiService.done (finished None) = true
  /\ fst (GeminiService.generateVeoVideo "a cat" landscape None
            (Some no_key_studio) "KEY" unfinished [finished None]
            (true, "BYTES"%string))
     = GeminiService.Threw "No video generated"
  /\ filter GeminiService.is_fetch
       (snd (GeminiService.generateVeoVideo "a cat" landscape None
               (Some no_key_studio) "KEY" unfinished [finished None]
               (true, "BYTES"%string))) = [].
Proof.
  assert (Hp : Forall (fun o => GeminiService.done o = false) [unfinished])
    by (repeat constructor).
  destruct (veo_outcome "a cat" landscape None (Some no_key_studio) "KEY"
              unfinished [finished None] [unfinished] [] (finished None)
              (true, "BYTES"%string) eq_refl Hp eq_refl) as (_ & Hnone & _).
  split; [reflexivity|]. split; [exact Hp|]. split; [reflexivity|].
  apply Hnone. left. reflexivity.
Defined.

(** ** Further instances: ChatInterface *)

Lemma send_guard_witness :
  ChatInterface.trim asciiPlatform ""%string = ""%string
  /\ ChatInterface.sendDisabled (typing "   " []) = false
  /\ ChatInterface.handleSend asciiPlatform ChatInterface.CHAT
       (typing "   " []) (ChatInterface.Thrown None) (ChatInterface.Thrown None)
     = (typing "   " [], []).
Proof.
  assert (Ht : ChatInterface.trim asciiPlatform ""%string = ""%string)
    by reflexivity.
  destruct (send_guard asciiPlatform ChatInterface.CHAT (typing "   " [])
              (ChatInterface.Thrown None) (ChatInterface.Thrown None) Ht)
    as (_ & _ & _ & Hblank).
  split; [exact Ht|].
  exact (Hblank eq_refl eq_refl eq_refl eq_refl).
Defined.

Lemma accepted_send_witness :
  ChatInterface.refused asciiPlatform (typing "" [photo]) = false
  /\ length
       (ChatInterface.messages
          (fst (ChatInterface.handleSend asciiPlatform ChatInterface.IMAGE_GEN
                  (typing "" [photo]) (ChatInterface.Returned picture_response)
                  (ChatInterface.Thrown None)))) = 3%nat
  /\ ChatInterface.files
       (fst (ChatInterface.handleSend asciiPlatform ChatInterface.IMAGE_GEN
               (typing "" [photo]) (ChatInterface.Returned picture_response)
               (ChatInterface.Thrown None))) = [].
Proof.
  assert (Hok : ChatInterface.refused asciiPlatform (typing "" [photo]) = false)
    by reflexivity.
  destruct (accepted_send asciiPlatform ChatInterface.IMAGE_GEN
              (typing "" [photo]) (ChatInterface.Returned picture_response)
              (ChatInterface.Thrown None) Hok) as (_ & Hlen & _ & Hfiles & _).
  split; [exact Hok|]. split; [exact Hlen|exact Hfiles].
Defined.

Lemma failed_send_witness :
  ChatInterface.refused asciiPlatform (typing "hello" []) = false
  /\ ChatInterface.text
       (last (ChatInterface.messages
                (fst (ChatInterface.handleSend asciiPlatform ChatInterface.CHAT
                        (typing "hello" [])
                        (ChatInterface.Thrown (Some "quota exceeded"%string))
                        (ChatInterface.Thrown None))))
          ChatInterface.noMessage)
     = Some "Error: quota exceeded"%string.
Proof.
  assert (Hok : ChatInterface.refused asciiPlatform (typing "hello" []) = false)
    by reflexivity.
  destruct (failed_send asciiPlatform ChatInterface.CHAT (typing "hello" [])
              (ChatInterface.Thrown (Some "quota exceeded"%string))
              (ChatInterface.Thrown None) (Some "quota exceeded"%string)
              Hok eq_refl) as (_ & Htext & _).
  split; [exact Hok|exact Htext].
Defined.

Lemma reply_from_parts_witness :
  ChatInterface.files (typing "Please EDIT it" [photo]) = photo :: []
  /\ ChatInterface.includes
       (ChatInterface.toLowerCase asciiPlatform "Please EDIT it") "edit"
     = true
  /\ fst (ChatInterface.respond asciiPlatform ChatInterface.CHAT
            (typing "Please EDIT it" [photo])
            (ChatInterface.Returned picture_response)
            (ChatInterface.Thrown None))
     = ChatInterface.Returned
         {| ChatInterface.replyText := "Here: ";
            ChatInterface.generatedImage := Some "BBBB"%string;
            ChatInterface.replyVideo := None;
            ChatInterface.groundingData := None |}
  /\ fst (ChatInterface.respond asciiPlatform ChatInterface.IMAGE_GEN
            (typing "Please EDIT it" [photo])
            (ChatInterface.Returned picture_response)
            (ChatInterface.Thrown None))
     = ChatInterface.Returned
         {| ChatInterface.replyText := "Here: first";
            ChatInterface.generatedImage := Some "BBBB"%string;
            ChatInterface.replyVideo := None;
            ChatInterface.groundingData := None |}.
Proof.
  destruct (reply_from_parts asciiPlatform (typing "Please EDIT it" [photo])
              picture_response (ChatInterface.Thrown None)) as [Himg Hedit].
  split; [reflexivity|]. split; [reflexivity|].
  split; [exact (Hedit photo [] eq_refl eq_refl)|exact Himg].
Defined.

Lemma chat_dispatch_witness :
  ChatInterface.files (typing "Please EDIT it" [photo]) = photo :: []
  /\ ChatInterface.includes
       (ChatInterface.toLowerCase asciiPlatform "Please EDIT it") "edit"
     = true
  /\ snd (ChatInterface.respond asciiPlatform ChatInterface.CHAT
            (typing "Please EDIT it" [photo]) (ChatInterface.Thrown None)
            (ChatInterface.Thrown None))
     = [ChatInterface.EditImage "Please EDIT it" "iVBORw0KGgo=" "image/png"].
Proof.
  destruct (chat_dispatch asciiPlatform (typing "Please EDIT it" [photo])
              (ChatInterface.Thrown None) (ChatInterface.Thrown None))
    as [Hedit _].
  split; [reflexivity|]. split; [reflexivity|].
  exact (Hedit photo [] eq_refl eq_refl).
Defined.

Lemma video_reply_witness :
  ChatInterface.refused asciiPlatform (typing "a cat" []) = false
  /\ unfinished :: [finished None] = [unfinished] ++ finished None :: []
  /\ Forall (fun o => GeminiService.done o = false) [unfinished]
  /\ GeminiService.done (finished None) = true
  /\ exists v,
       ChatInterface.settle
         (fst (GeminiService.generateVeoVideo "a cat" landscape None
                 (Some no_key_studio) "KEY" unfinished [finished None]
                 (true, "BYTES"%string))) = Some v
       /\ ChatInterface.text
            (last (ChatInterface.messages
                     (fst (ChatInterface.handleSend asciiPlatform
                             ChatInterface.VIDEO_GEN (typing "a cat" [])
                             (ChatInterface.Thrown None) v)))
               ChatInterface.noMessage)
          = Some "Error: No video generated"%string.
Proof.
  assert (Hok : ChatInterface.refused asciiPlatform (typing "a cat" []) = false)
    by reflexivity.
  assert (Hp : Forall (fun o => GeminiService.done o = false) [unfinished])
    by (repeat constructor).
  destruct (video_reply asciiPlatform (typing "a cat" [])
              (ChatInterface.Thrown None) (Some no_key_studio) "KEY"
              unfinished [finished None] [unfinished] [] (finished None)
              (true, "BYTES"%string) Hok eq_refl Hp eq_refl)
    as (v & Hv & _ & Hnone & _).
  split; [exact Hok|]. split; [reflexivity|]. split; [exact Hp|].
  split; [reflexivity|].
  exists v. split; [exact Hv|].
  exact (proj1 (Hnone (or_introl eq_refl))).
Defined.
